(** * MyAwesomeAgent: the random agent with a per-frame recorder

    A shallow embedding of [src/agents/my_awesome_agent.py].  The class
    derives from [agents.agent.Agent] and uses the enumerations and the
    frame structure of [agents.structs]; neither module is part of the
    translated file, so what the agent needs from them is an interface
    ([ActionSchema], [RandomSource]) or is modelled from the specification
    and says so in its comment. *)

From Stdlib Require Import ZArith Decimal DecimalString DecimalN Ascii String.
From stdpp Require Import base tactics option list gmap strings.

Local Open Scope Z_scope.
Set Warnings "-register-all".

(** ** Python values of JSON-native shape

    The dictionaries and lists the agent builds ([frame_data], the payload
    handed to [set_data], the structured reasoning) only hold integers,
    strings, booleans, lists and string-keyed dictionaries.  A dictionary is
    an association list in insertion order, as [dict] literals keep it. *)

Inductive json : Type :=
| JNull
| JBool (b : bool)
| JInt (z : Z)
| JStr (s : string)
| JList (items : list json)
| JDict (fields : list (string * json)).

(** [d[key]] on a dictionary literal whose keys are distinct. *)
Fixpoint assoc (key : string) (fields : list (string * json)) : option json :=
  match fields with
  | [] => None
  | (k, v) :: rest => if String.eqb k key then Some v else assoc key rest
  end.

Definition json_get (key : string) (doc : json) : option json :=
  match doc with
  | JDict fields => assoc key fields
  | _ => None
  end.

(** ** Integer formatting

    [str(n)] and the format specification [04d] of f-strings, over the
    decimal digits of the Standard Library. *)

Module PyFormat.

(** The decimal digits of a natural number, most significant first. *)
Definition digits (n : N) : string := NilEmpty.string_of_uint (N.to_uint n).

(** [str(z)] for an [int]. *)
Definition str (z : Z) : string :=
  if z <? 0 then "-" +:+ digits (Z.abs_N z) else digits (Z.abs_N z).

(** [n] copies of the character ["0"]. *)
Fixpoint zeros (n : nat) : string :=
  match n with
  | O => ""
  | S n' => String "0" (zeros n')
  end.

(** [s.zfill]-style padding of a digit string up to [width] characters. *)
Definition pad (width : nat) (s : string) : string :=
  zeros (width - String.length s) +:+ s.

(** [f"{z:04d}"]: sign-aware zero padding, the sign counts in the width. *)
Definition format_04d (z : Z) : string :=
  if z <? 0 then "-" +:+ pad 3 (digits (Z.abs_N z)) else pad 4 (digits (Z.abs_N z)).

(** Reading a padded number back: only used to show the format is
    injective. *)
Definition read_digits (s : string) : option N :=
  N.of_uint <$> NilEmpty.uint_of_string s.

Definition read_int (s : string) : option Z :=
  match s with
  | String "-" s' => (fun n => - Z.of_N n) <$> read_digits s'
  | _ => Z.of_N <$> read_digits s
  end.

(** The characters a formatted integer is made of. *)
Definition is_digit (c : ascii) : bool :=
  match c with
  | "0" | "1" | "2" | "3" | "4" | "5" | "6" | "7" | "8" | "9" => true
  | _ => false
  end%char.

Fixpoint all_chars (p : ascii -> bool) (s : string) : bool :=
  match s with
  | EmptyString => true
  | String c s' => p c && all_chars p s'
  end.

Definition numeric_char (c : ascii) : bool := is_digit c || Ascii.eqb c "-".

End PyFormat.

(** ** The module [json]

    [json.dumps(doc, indent=2)] with the default [ensure_ascii], and
    [json.loads].  A character of a string is a code point below 256. *)

Module Json.

Definition dq : ascii := "034".
Definition bs : ascii := "\".
Definition lf : ascii := "010".

Definition hex_digit (n : N) : ascii :=
  match n with
  | 0 => "0" | 1 => "1" | 2 => "2" | 3 => "3" | 4 => "4" | 5 => "5" | 6 => "6" | 7 => "7"
  | 8 => "8" | 9 => "9" | 10 => "a" | 11 => "b" | 12 => "c" | 13 => "d" | 14 => "e"
  | _ => "f"
  end%N%char.

(** One character of a string, as [ensure_ascii] writes it. *)
Definition escape_char (c : ascii) : string :=
  if Ascii.eqb c dq then String bs (String dq "")
  else if Ascii.eqb c bs then String bs (String bs "")
  else if Ascii.eqb c "008" then "\b"
  else if Ascii.eqb c "012" then "\f"
  else if Ascii.eqb c "010" then "\n"
  else if Ascii.eqb c "013" then "\r"
  else if Ascii.eqb c "009" then "\t"
  else if ((N_of_ascii c <? 32) || (126 <? N_of_ascii c))%N then
    "\u00" +:+ String (hex_digit (N_of_ascii c / 16)) (String (hex_digit (N_of_ascii c mod 16)) "")
  else String c "".

Fixpoint escape (s : string) : string :=
  match s with
  | EmptyString => ""
  | String c s' => escape_char c +:+ escape s'
  end.

Definition quote (s : string) : string := String dq (escape s +:+ String dq "").

Fixpoint spaces (n : nat) : string :=
  match n with
  | O => ""
  | S n' => String " " (spaces n')
  end.

(** ['\n' + ' ' * (2 * level)]. *)
Definition newline_indent (level : nat) : string := String lf (spaces (2 * level)).

(** [item_separator + newline_indent] between the items of a list or a
    dictionary. *)
Definition item_separator (level : nat) : string := "," +:+ newline_indent level.

Fixpoint join (separator : string) (chunks : list string) : string :=
  match chunks with
  | [] => ""
  | [chunk] => chunk
  | chunk :: rest => chunk +:+ separator +:+ join separator rest
  end.

(** [json.dumps(j, indent=2)] at a nesting level. *)
Fixpoint dumps_at (level : nat) (j : json) : string :=
  match j with
  | JNull => "null"
  | JBool true => "true"
  | JBool false => "false"
  | JInt z => PyFormat.str z
  | JStr s => quote s
  | JList [] => "[]"
  | JList items =>
      "[" +:+ newline_indent (S level)
      +:+ join (item_separator (S level)) (map (dumps_at (S level)) items)
      +:+ newline_indent level +:+ "]"
  | JDict [] => "{}"
  | JDict fields =>
      "{" +:+ newline_indent (S level)
      +:+ join (item_separator (S level))
            (map (fun kv => quote kv.1 +:+ ": " +:+ dumps_at (S level) kv.2) fields)
      +:+ newline_indent level +:+ "}"
  end.

Definition dumps (j : json) : string := dumps_at 0 j.

(** *** Reading: [json.loads] on integers, strings, booleans, null, arrays
    and objects.  A float is outside the model: where Python reads one,
    this reader gives up. *)

Definition is_ws (c : ascii) : bool :=
  match c with
  | " " | "009" | "010" | "013" => true
  | _ => false
  end%char.

Fixpoint skip_ws (s : string) : string :=
  match s with
  | String c s' => if is_ws c then skip_ws s' else s
  | EmptyString => ""
  end.

Definition unhex (c : ascii) : option N :=
  match Ascii.is_nat c with
  | Some n => Some (N.of_nat n)
  | None =>
      match c with
      | "a" | "A" => Some 10
      | "b" | "B" => Some 11
      | "c" | "C" => Some 12
      | "d" | "D" => Some 13
      | "e" | "E" => Some 14
      | "f" | "F" => Some 15
      | _ => None
      end%N%char
  end.

(** The character a backslash escape of one letter stands for. *)
Definition unescape (e : ascii) : option ascii :=
  if Ascii.eqb e dq then Some dq
  else match e with
       | "\" => Some "\"
       | "/" => Some "/"
       | "b" => Some "008"
       | "f" => Some "012"
       | "n" => Some "010"
       | "r" => Some "013"
       | "t" => Some "009"
       | _ => None
       end%char.

Definition prepend (c : ascii) (r : option (string * string)) : option (string * string) :=
  match r with
  | Some (s, rest) => Some (String c s, rest)
  | None => None
  end.

(** The text after an opening quote: the string's characters and what
    follows the closing quote.  A character is a code point below 256. *)
Fixpoint scan_string (s : string) : option (string * string) :=
  match s with
  | EmptyString => None
  | String c s1 =>
      if Ascii.eqb c dq then Some ("", s1)
      else if Ascii.eqb c bs then
        match s1 with
        | EmptyString => None
        | String e s2 =>
            if Ascii.eqb e "u" then
              match s2 with
              | String h1 (String h2 (String h3 (String h4 s3))) =>
                  match unhex h1, unhex h2, unhex h3, unhex h4 with
                  | Some n1, Some n2, Some n3, Some n4 =>
                      if ((n1 =? 0) && (n2 =? 0))%N
                      then prepend (ascii_of_N (n3 * 16 + n4)) (scan_string s3)
                      else None
                  | _, _, _, _ => None
                  end
              | _ => None
              end
            else
              match unescape e with
              | Some c' => prepend c' (scan_string s2)
              | None => None
              end
        end
      else if (N_of_ascii c <? 32)%N then None
      else prepend c (scan_string s1)
  end.

(** The longest prefix of digits, and the rest. *)
Fixpoint span_digits (s : string) : string * string :=
  match s with
  | String c s' =>
      if PyFormat.is_digit c then let '(ds, rest) := span_digits s' in (String c ds, rest)
      else ("", s)
  | EmptyString => ("", "")
  end.

Definition continues_number (rest : string) : bool :=
  match rest with
  | String c _ =>
      PyFormat.is_digit c || Ascii.eqb c "." || Ascii.eqb c "e" || Ascii.eqb c "E"
  | EmptyString => false
  end.

Definition scan_digits (s : string) : option (N * string) :=
  let '(ds, rest) := span_digits s in
  match ds with
  | EmptyString => None
  | String "0" (String _ _) => None
  | _ => if continues_number rest then None
         else n ← PyFormat.read_digits ds; Some (n, rest)
  end.

Definition scan_number (s : string) : option (Z * string) :=
  match s with
  | String "-" s' => '(n, rest) ← scan_digits s'; Some (- Z.of_N n, rest)
  | _ => '(n, rest) ← scan_digits s; Some (Z.of_N n, rest)
  end.

Fixpoint strip_prefix (p s : string) : option string :=
  match p, s with
  | EmptyString, _ => Some s
  | String a p', String b s' => if Ascii.eqb a b then strip_prefix p' s' else None
  | _, _ => None
  end.

(** [scan_once] and the loops of arrays and objects.  [parse_items] starts
    at an item and ends after the closing bracket; [parse_members] starts
    at the quote of a key and ends after the closing brace.  An object is
    read as its pairs in order, which for distinct keys is the dictionary. *)
Fixpoint parse_value (fuel : nat) (s : string) : option (json * string) :=
  match fuel with
  | O => None
  | S fuel' =>
      match s with
      | String c s1 =>
          if Ascii.eqb c dq then '(str, rest) ← scan_string s1; Some (JStr str, rest)
          else match c with
               | "[" =>
                   match skip_ws s1 with
                   | String "]" rest => Some (JList [], rest)
                   | s2 => '(items, rest) ← parse_items fuel' s2; Some (JList items, rest)
                   end
               | "{" =>
                   match skip_ws s1 with
                   | String "}" rest => Some (JDict [], rest)
                   | s2 => '(fields, rest) ← parse_members fuel' s2; Some (JDict fields, rest)
                   end
               | "n" => rest ← strip_prefix "ull" s1; Some (JNull, rest)
               | "t" => rest ← strip_prefix "rue" s1; Some (JBool true, rest)
               | "f" => rest ← strip_prefix "alse" s1; Some (JBool false, rest)
               | _ => '(z, rest) ← scan_number s; Some (JInt z, rest)
               end%char
      | EmptyString => None
      end
  end
with parse_items (fuel : nat) (s : string) : option (list json * string) :=
  match fuel with
  | O => None
  | S fuel' =>
      '(item, s1) ← parse_value fuel' s;
      match skip_ws s1 with
      | String "]" rest => Some ([item], rest)
      | String "," s2 =>
          '(items, rest) ← parse_items fuel' (skip_ws s2); Some (item :: items, rest)
      | _ => None
      end
  end
with parse_members (fuel : nat) (s : string) : option (list (string * json) * string) :=
  match fuel with
  | O => None
  | S fuel' =>
      match s with
      | String c s1 =>
          if Ascii.eqb c dq then
            '(key, s2) ← scan_string s1;
            match skip_ws s2 with
            | String ":" s3 =>
                '(v, s4) ← parse_value fuel' (skip_ws s3);
                match skip_ws s4 with
                | String "}" rest => Some ([(key, v)], rest)
                | String "," s5 =>
                    '(fields, rest) ← parse_members fuel' (skip_ws s5);
                    Some ((key, v) :: fields, rest)
                | _ => None
                end
            | _ => None
            end
          else None
      | EmptyString => None
      end
  end.

(** [json.loads]: one value, with whitespace around it and nothing else. *)
Definition loads (text : string) : option json :=
  '(j, rest) ← parse_value (S (String.length text)) (skip_ws text);
  match skip_ws rest with
  | EmptyString => Some j
  | _ => None
  end.

End Json.

(** ** [os.path.join] on POSIX, for two components *)

Definition sep : ascii := "/"%char.

Fixpoint endswith_sep (s : string) : bool :=
  match s with
  | EmptyString => false
  | String c EmptyString => Ascii.eqb c sep
  | String _ s' => endswith_sep s'
  end.

Definition startswith_sep (s : string) : bool :=
  match s with
  | String c _ => Ascii.eqb c sep
  | EmptyString => false
  end.

Definition path_join (a b : string) : string :=
  if startswith_sep b then b
  else if String.eqb a "" || endswith_sep a then a +:+ b
  else a +:+ "/" +:+ b.

(** ** Exceptions and outcomes *)

Inductive exn_class : Type := IndexError | ValueError | TypeError | OSError.

(** An exception object: its class and what [str(e)] prints.  All four
    classes derive from [Exception]. *)
Record exn : Type := Exn { exn_kind : exn_class; exn_str : string }.

Inductive outcome (A : Type) : Type :=
| Returns (a : A)
| Raises (e : exn).
Arguments Returns {A} a.
Arguments Raises {A} e.

(** ** What the agent reads from outside the process

    The clock and the storage are not program state: one call of the
    recorder observes one clock value and one storage behaviour. *)

Inductive io_fault : Type :=
| OpenFails (msg : string)     (* [open(filepath, 'w')] raises [OSError] *)
| DumpFails (e : exn) (written : nat).
                               (* [json.dump] raises after the file was opened and
                                  [written] characters went out *)

Record Env : Type := {
  time_ms : Z;                 (* [int(time.time() * 1000)] *)
  fault : option io_fault
}.

(** ** Interfaces of the modules the agent imports *)

(** The module [random]: a hidden generator state, [random.seed], and the
    primitive [_randbelow] that [choice] and [randint] are built on, with
    its contract. *)
Class RandomSource : Type := {
  rng : Type;
  seed_rng : Z -> rng;
  randbelow : Z -> rng -> Z * rng;
  randbelow_range : forall n g, 0 < n -> 0 <= (randbelow n g).1 < n
}.

Inductive ActionType : Type := SimpleAction | ComplexAction.

Inductive EnumValue : Type := IntValue (z : Z) | StrValue (s : string).

(** Modelled from the spec: the enumeration [GameAction] of [agents.structs]
    (the action schema collaborator), which is not part of the translated
    file.  It has a reserved member [RESET], is iterated in definition order,
    and classifies each member as simple or complex. *)
Class ActionSchema : Type := {
  GameAction : Type;
  GameAction_eq_dec :: EqDecision GameAction;
  RESET : GameAction;
  GameAction_members : list GameAction;
  action_type : GameAction -> ActionType;
  action_value : GameAction -> EnumValue
}.

#[global] Instance ActionType_eq_dec : EqDecision ActionType.
Proof. solve_decision. Defined.

(** Modelled from the spec: the enumeration [GameState] of [agents.structs]:
    "one of NOT_PLAYED, GAME_OVER, WIN, and other in-progress variants
    defined by the host game protocol".  An in-progress variant is named by
    the protocol. *)
Inductive GameState : Type :=
| NOT_PLAYED
| GAME_OVER
| WIN
| IN_PROGRESS (variant : string).

#[global] Instance GameState_eq_dec : EqDecision GameState.
Proof. solve_decision. Defined.

(** [state.value]: the string persisted for a state. *)
Definition GameState_value (st : GameState) : string :=
  match st with
  | NOT_PLAYED => "NOT_PLAYED"
  | GAME_OVER => "GAME_OVER"
  | WIN => "WIN"
  | IN_PROGRESS variant => variant
  end.

(** [f"{v}"] for an enumeration value. *)
Definition value_str (v : EnumValue) : string :=
  match v with
  | IntValue z => PyFormat.str z
  | StrValue s => s
  end.

Definition value_json (v : EnumValue) : json :=
  match v with
  | IntValue z => JInt z
  | StrValue s => JStr s
  end.

(** The built-in [any] on a list of booleans. *)
Definition any (l : list bool) : bool := foldr orb false l.

(** [seq[i]] with Python's negative indices; [None] is [IndexError]. *)
Definition getitem {A : Type} (seq : list A) (i : Z) : option A :=
  if 0 <=? i then seq !! Z.to_nat i
  else if 0 <=? Z.of_nat (length seq) + i then seq !! Z.to_nat (Z.of_nat (length seq) + i)
  else None.

Section Agent.
Context `{RS : RandomSource} `{AS : ActionSchema}.

(** [action.is_simple()] and [action.is_complex()]. *)
Definition is_simple (a : GameAction) : bool := bool_decide (action_type a = SimpleAction).
Definition is_complex (a : GameAction) : bool := bool_decide (action_type a = ComplexAction).

(** Modelled from the spec: the structure [FrameData] of [agents.structs],
    with the attributes section 3 of the specification lists.  The payload
    [frame] is a sequence of opaque JSON values. *)
Record FrameData : Type := {
  game_id : string;
  frame : list json;
  state : GameState;
  score : Z;
  guid : string;
  full_reset : bool;
  available_actions : list GameAction
}.

(** Modelled from the spec: [FrameData.is_empty], "reports whether the
    payload carries no content". *)
Definition is_empty (fd : FrameData) : bool :=
  match frame fd with
  | [] => true
  | _ => false
  end.

(** *** The process state

    A [GameAction] member is one shared object: [action.reasoning = ...] and
    [action.set_data(...)] write attributes of the member itself, visible
    through every reference to it, so the attributes live in a store keyed
    by the member.  [trace] is a ghost log of history appends and recorder
    calls, in the order they happen. *)

Record ActionAttrs : Type := {
  reasoning : option json;
  action_data : option json
}.

Inductive Event : Type :=
| HistoryAppended (fd : FrameData)
| RecorderInvoked (fd : FrameData) (frame_number : Z).

Record State : Type := {
  self_game_id : string;
  self_frames_dir : string;
  self_frames : list FrameData;
  random_state : rng;
  member_attrs : GameAction -> ActionAttrs;
  files : gmap string string;
  stdout : list string;
  trace : list Event
}.

Definition set_self (gid dir : string) (fs : list FrameData) (s : State) : State :=
  {| self_game_id := gid; self_frames_dir := dir; self_frames := fs;
     random_state := random_state s; member_attrs := member_attrs s;
     files := files s; stdout := stdout s; trace := trace s |}.

Definition set_random_state (g : rng) (s : State) : State :=
  {| self_game_id := self_game_id s; self_frames_dir := self_frames_dir s;
     self_frames := self_frames s;
     random_state := g; member_attrs := member_attrs s;
     files := files s; stdout := stdout s; trace := trace s |}.

Definition set_member_attrs (m : GameAction -> ActionAttrs) (s : State) : State :=
  {| self_game_id := self_game_id s; self_frames_dir := self_frames_dir s;
     self_frames := self_frames s;
     random_state := random_state s; member_attrs := m;
     files := files s; stdout := stdout s; trace := trace s |}.

Definition set_files (fs : gmap string string) (s : State) : State :=
  {| self_game_id := self_game_id s; self_frames_dir := self_frames_dir s;
     self_frames := self_frames s;
     random_state := random_state s; member_attrs := member_attrs s;
     files := fs; stdout := stdout s; trace := trace s |}.

Definition set_stdout (out : list string) (s : State) : State :=
  {| self_game_id := self_game_id s; self_frames_dir := self_frames_dir s;
     self_frames := self_frames s;
     random_state := random_state s; member_attrs := member_attrs s;
     files := files s; stdout := out; trace := trace s |}.

Definition set_trace (t : list Event) (s : State) : State :=
  {| self_game_id := self_game_id s; self_frames_dir := self_frames_dir s;
     self_frames := self_frames s;
     random_state := random_state s; member_attrs := member_attrs s;
     files := files s; stdout := stdout s; trace := t |}.

(** *** Statements: state passing with exceptions

    A raised exception keeps the state as it was when it was raised. *)
Definition M (A : Type) : Type := State -> outcome A * State.

#[global] Instance M_ret : MRet M := fun A a s => (Returns a, s).

#[global] Instance M_bind : MBind M := fun A B k m s =>
  match m s with
  | (Returns a, s') => k a s'
  | (Raises e, s') => (Raises e, s')
  end.

Definition raise {A : Type} (e : exn) : M A := fun s => (Raises e, s).

(** [try: body / except Exception as e: handler]. *)
Definition try_except {A : Type} (body : M A) (handler : exn -> M A) : M A := fun s =>
  match body s with
  | (Returns a, s') => (Returns a, s')
  | (Raises e, s') => handler e s'
  end.

Definition gets {A : Type} (f : State -> A) : M A := fun s => (Returns (f s), s).

Definition modify (f : State -> State) : M unit := fun s => (Returns tt, f s).

Definition print (line : string) : M unit :=
  modify (fun s => set_stdout (stdout s ++ [line]) s).

Definition emit (ev : Event) : M unit :=
  modify (fun s => set_trace (trace s ++ [ev]) s).

(** *** The module [random] *)

Definition random_randbelow (n : Z) : M Z := fun s =>
  let '(r, g) := randbelow n (random_state s) in (Returns r, set_random_state g s).

(** [random.choice(seq)]. *)
Definition random_choice {A : Type} (seq : list A) : M A :=
  match seq with
  | [] => raise (Exn IndexError "Cannot choose from an empty sequence")
  | _ =>
      i ← random_randbelow (Z.of_nat (length seq));
      match getitem seq i with
      | Some a => mret a
      | None => raise (Exn IndexError "list index out of range")
      end
  end.

(** [random.randint(a, b)], that is [randrange(a, b + 1)]. *)
Definition random_randint (a b : Z) : M Z :=
  let width := b + 1 - a in
  if 0 <? width then r ← random_randbelow width; mret (a + r)
  else raise (Exn ValueError "empty range for randrange()").

(** *** Attributes of a [GameAction] member *)

Definition update_attrs (a : GameAction) (f : ActionAttrs -> ActionAttrs)
    (m : GameAction -> ActionAttrs) : GameAction -> ActionAttrs :=
  fun b => if decide (b = a) then f (m b) else m b.

(** [action.reasoning = r]. *)
Definition set_reasoning (a : GameAction) (r : json) : M unit :=
  modify (fun s => set_member_attrs
    (update_attrs a (fun at_ => {| reasoning := Some r; action_data := action_data at_ |})
       (member_attrs s)) s).

(** Modelled from the spec: [GameAction.set_data] of [agents.structs], which
    attaches the payload to the action. *)
Definition set_data (a : GameAction) (data : json) : M unit :=
  modify (fun s => set_member_attrs
    (update_attrs a (fun at_ => {| reasoning := reasoning at_; action_data := Some data |})
       (member_attrs s)) s).

(** *** The agent *)

Definition MAX_ACTIONS : Z := 80.

(** Modelled from the spec: [Agent.__init__] of [agents.agent], which fixes
    the session's [game_id] and starts with an empty frame history. *)
Definition Agent_init (gid : string) : M unit :=
  modify (fun s => set_self gid (self_frames_dir s) [] s).

(** A text with a NUL character in it. *)
Fixpoint has_nul (s : string) : bool :=
  match s with
  | EmptyString => false
  | String c rest => Ascii.eqb c Ascii.zero || has_nul rest
  end.

(** [os.makedirs(path, exist_ok=True)].  Directories hold no record, so
    all the agent sees of the call is whether it raises.  [refusal] is the
    exception the system answers with, if it refuses: of whatever class it
    is, it is raised as it is.  A path the system accepts up to a component
    with a NUL character never reaches the system for that component:
    [os.mkdir] raises [ValueError] on it, which [makedirs] does not catch. *)
Definition os_makedirs (refusal : option exn) (path : string) : M unit :=
  match refusal with
  | Some e => raise e
  | None =>
      if has_nul path then raise (Exn ValueError "embedded null byte")
      else mret tt
  end.

(** [__init__].  [now_us] is [int(time.time() * 1000000)], [hash_gid] is
    [hash(self.game_id)], and [makedirs_refusal] is what the system answers
    to [os.makedirs]; nothing catches what that call raises. *)
Definition init (now_us hash_gid : Z) (makedirs_refusal : option exn) (gid : string) : M unit :=
  Agent_init gid;;
  let seed := now_us + hash_gid `mod` 1000000 in
  modify (fun s => set_random_state (seed_rng seed) s);;
  gid' ← gets self_game_id;
  modify (fun s => set_self (self_game_id s) (path_join "frames" gid') (self_frames s) s);;
  dir ← gets self_frames_dir;
  os_makedirs makedirs_refusal dir.

(** The property [name]; [super_name] is what [super().name] returns. *)
Definition name (super_name : string) : M string :=
  mret (super_name +:+ "." +:+ PyFormat.str MAX_ACTIONS).

Definition is_done (frames : list FrameData) (latest_frame : FrameData) : M bool :=
  mret (any [bool_decide (state latest_frame = WIN)]).

Definition choose_action (frames : list FrameData) (latest_frame : FrameData) : M GameAction :=
  action ← (if bool_decide (state latest_frame ∈ [NOT_PLAYED; GAME_OVER])
            then mret RESET
            else random_choice (filter (fun a => a ≠ RESET) GameAction_members));
  (if is_simple action then
     set_reasoning action
       (JStr ("RNG told me to pick " +:+ value_str (action_value action)))
   else if is_complex action then
     x ← random_randint 0 63;
     y ← random_randint 0 63;
     set_data action (JDict [("x", JInt x); ("y", JInt y)]);;
     set_reasoning action
       (JDict [("desired_action", JStr (value_str (action_value action)));
               ("my_reason", JStr "RNG said so!")])
   else mret tt);;
  mret action.

(** The local variables of [save_frame_to_file]. *)
Definition record_filename (frame_number timestamp : Z) : string :=
  "frame_" +:+ PyFormat.format_04d frame_number +:+ "_" +:+ PyFormat.str timestamp +:+ ".json".

Definition record_filepath (dir : string) (frame_number timestamp : Z) : string :=
  path_join dir (record_filename frame_number timestamp).

Definition frame_data (fd : FrameData) (frame_number timestamp : Z) : json :=
  JDict [("frame_number", JInt frame_number);
         ("timestamp", JInt timestamp);
         ("game_id", JStr (game_id fd));
         ("frame", JList (frame fd));
         ("state", JStr (GameState_value (state fd)));
         ("score", JInt (score fd));
         ("guid", JStr (guid fd));
         ("full_reset", JBool (full_reset fd));
         ("available_actions",
          JList (map (fun action => value_json (action_value action)) (available_actions fd)))].

(** [open(filepath, 'w')]: creates or empties the file, unless it raises. *)
Definition open_w (env : Env) (filepath : string) : M unit :=
  match fault env with
  | Some (OpenFails msg) => raise (Exn OSError msg)
  | _ => modify (fun s => set_files (<[filepath := ""]> (files s)) s)
  end.

(** [json.dump(doc, f, indent=2)] followed by the close of the [with]
    block: the file holds the text of the document, or, when the dump
    raises, the part of the text that was written before. *)
Definition json_dump (env : Env) (doc : json) (filepath : string) : M unit :=
  match fault env with
  | Some (DumpFails e written) =>
      modify (fun s =>
        set_files (<[filepath := substring 0 written (Json.dumps doc)]> (files s)) s);;
      raise e
  | _ => modify (fun s => set_files (<[filepath := Json.dumps doc]> (files s)) s)
  end.

Definition save_frame_to_file (env : Env) (fd : FrameData) (frame_number : Z) : M unit :=
  emit (RecorderInvoked fd frame_number);;
  if negb (is_empty fd) then
    let timestamp := time_ms env in
    dir ← gets self_frames_dir;
    let filepath := record_filepath dir frame_number timestamp in
    let doc := frame_data fd frame_number timestamp in
    try_except
      (open_w env filepath;;
       json_dump env doc filepath;;
       print ("Saved frame " +:+ PyFormat.str frame_number +:+ " to " +:+ filepath))
      (fun e =>
       print ("Failed to save frame " +:+ PyFormat.str frame_number +:+ ": " +:+ exn_str e))
  else mret tt.

(** Modelled from the spec: [Agent.append_frame] of [agents.agent], the
    append operation of the frame history. *)
Definition Agent_append_frame (fd : FrameData) : M unit :=
  modify (fun s => set_self (self_game_id s) (self_frames_dir s) (self_frames s ++ [fd]) s);;
  emit (HistoryAppended fd).

Definition append_frame (env : Env) (fd : FrameData) : M unit :=
  Agent_append_frame fd;;
  fs ← gets self_frames;
  let frame_number := Z.of_nat (length fs) - 1 in
  save_frame_to_file env fd frame_number.

End Agent.

Arguments FrameData {AS}.
Arguments State {RS AS}.
Arguments Event {AS}.

(** ** A concrete session

    A scripted random source and a seven-member action schema, to run the
    agent on. *)

Module Demo.

(** A generator that replays a script of raw draws, each reduced into the
    requested range; an exhausted script draws zero. *)
Definition scripted_randbelow (n : Z) (g : list Z) : Z * list Z :=
  match g with
  | [] => (0, [])
  | z :: g' => (z `mod` n, g')
  end.

Lemma scripted_randbelow_range n g : 0 < n -> 0 <= (scripted_randbelow n g).1 < n.
Proof.
  intros Hn. destruct g as [|z g']; simpl; [lia|].
  apply Z.mod_pos_bound, Hn.
Qed.

#[export] Instance scripted : RandomSource := {|
  rng := list Z;
  seed_rng := fun z => [z];
  randbelow := scripted_randbelow;
  randbelow_range := scripted_randbelow_range
|}.

Inductive Action : Type :=
| Reset | Action1 | Action2 | Action3 | Action4 | Action5 | Action6.

#[export] Instance Action_eq_dec : EqDecision Action.
Proof. solve_decision. Defined.

Definition Action_type (a : Action) : ActionType :=
  match a with
  | Action6 => ComplexAction
  | _ => SimpleAction
  end.

Definition Action_value (a : Action) : EnumValue :=
  IntValue match a with
           | Reset => 0 | Action1 => 1 | Action2 => 2 | Action3 => 3
           | Action4 => 4 | Action5 => 5 | Action6 => 6
           end.

#[export] Instance schema : ActionSchema := {|
  GameAction := Action;
  RESET := Reset;
  GameAction_members := [Reset; Action1; Action2; Action3; Action4; Action5; Action6];
  action_type := Action_type;
  action_value := Action_value
|}.

Definition no_attrs : Action -> ActionAttrs :=
  fun _ => {| reasoning := None; action_data := None |}.

(** A fresh agent for the game ["ls20"], with a script of draws. *)
Definition fresh (script : list Z) : State := {|
  self_game_id := "ls20";
  self_frames_dir := "frames/ls20";
  self_frames := [];
  random_state := script;
  member_attrs := no_attrs;
  files := ∅;
  stdout := [];
  trace := []
|}.

Definition frame_in (st : GameState) : FrameData := {|
  game_id := "ls20";
  frame := [JList [JList [JInt 0; JInt 1]; JList [JInt 2; JInt 3]]];
  state := st;
  score := 0;
  guid := "g-1";
  full_reset := false;
  available_actions := [Action1; Action6]
|}.

Definition empty_frame : FrameData := {|
  game_id := "ls20";
  frame := [];
  state := NOT_PLAYED;
  score := 0;
  guid := "";
  full_reset := false;
  available_actions := []
|}.

Definition playing : GameState := IN_PROGRESS "NOT_FINISHED".

(** Text by lines, and a quoted word, to spell out a file's content. *)
Definition lines (l : list string) : string := Json.join (String Json.lf "") l.
Definition q (word : string) : string := String Json.dq (word +:+ String Json.dq "").

Definition calm (t : Z) : Env := {| time_ms := t; fault := None |}.
Definition disk_down (t : Z) : Env :=
  {| time_ms := t; fault := Some (OpenFails "[Errno 13] Permission denied") |}.
Definition dump_breaks (t : Z) : Env :=
  {| time_ms := t;
     fault := Some (DumpFails (Exn OSError "[Errno 28] No space left on device") 20) |}.

End Demo.

(** ** The definitions at work *)

Example str_neg : PyFormat.str (-12) = "-12". Proof. reflexivity. Qed.
Example str_zero : PyFormat.str 0 = "0". Proof. reflexivity. Qed.
Example format_04d_small : PyFormat.format_04d 7 = "0007". Proof. reflexivity. Qed.
Example format_04d_zero : PyFormat.format_04d 0 = "0000". Proof. reflexivity. Qed.
Example format_04d_wide : PyFormat.format_04d 12345 = "12345". Proof. reflexivity. Qed.
Example format_04d_neg : PyFormat.format_04d (-5) = "-005". Proof. reflexivity. Qed.
Example read_int_padded : PyFormat.read_int "-005" = Some (-5). Proof. reflexivity. Qed.

Example path_join_frames : path_join "frames" "ls20" = "frames/ls20". Proof. reflexivity. Qed.
Example path_join_slash : path_join "frames/" "ls20" = "frames/ls20". Proof. reflexivity. Qed.

Example demo_reset :
  (choose_action [] (Demo.frame_in NOT_PLAYED) (Demo.fresh [])).1 = Returns Demo.Reset.
Proof. reflexivity. Qed.

Example demo_complex :
  (choose_action [] (Demo.frame_in Demo.playing) (Demo.fresh [5; 70; 3])).1 = Returns Demo.Action6.
Proof. reflexivity. Qed.

Example demo_complex_data :
  action_data
    (member_attrs (choose_action [] (Demo.frame_in Demo.playing) (Demo.fresh [5; 70; 3])).2 Demo.Action6)
  = Some (JDict [("x", JInt 6); ("y", JInt 3)]).
Proof. reflexivity. Qed.

Example demo_save :
  files (save_frame_to_file (Demo.calm 1700000000123) (Demo.frame_in Demo.playing) 7 (Demo.fresh [])).2
    !! "frames/ls20/frame_0007_1700000000123.json"
  = Some (Json.dumps (frame_data (Demo.frame_in Demo.playing) 7 1700000000123)).
Proof. vm_compute. reflexivity. Qed.

Example demo_record_text :
  Json.dumps (frame_data (Demo.frame_in WIN) 1 42)
  = Demo.lines
      ["{";
       "  " +:+ Demo.q "frame_number" +:+ ": 1,";
       "  " +:+ Demo.q "timestamp" +:+ ": 42,";
       "  " +:+ Demo.q "game_id" +:+ ": " +:+ Demo.q "ls20" +:+ ",";
       "  " +:+ Demo.q "frame" +:+ ": [";
       "    [";
       "      [";
       "        0,";
       "        1";
       "      ],";
       "      [";
       "        2,";
       "        3";
       "      ]";
       "    ]";
       "  ],";
       "  " +:+ Demo.q "state" +:+ ": " +:+ Demo.q "WIN" +:+ ",";
       "  " +:+ Demo.q "score" +:+ ": 0,";
       "  " +:+ Demo.q "guid" +:+ ": " +:+ Demo.q "g-1" +:+ ",";
       "  " +:+ Demo.q "full_reset" +:+ ": false,";
       "  " +:+ Demo.q "available_actions" +:+ ": [";
       "    1,";
       "    6";
       "  ]";
       "}"].
Proof. vm_compute. reflexivity. Qed.

Example demo_escape :
  Json.quote ("a\b" +:+ String Json.dq (String Json.lf (String "001" "z")))
  = String Json.dq ("a\\b\" +:+ String Json.dq ("\n\u0001z" +:+ String Json.dq "")).
Proof. vm_compute. reflexivity. Qed.

Example demo_loads_spaced :
  Json.loads " [ 1 , -0 , true , null ] " = Some (JList [JInt 1; JInt 0; JBool true; JNull]).
Proof. vm_compute. reflexivity. Qed.

Example demo_loads_leading_zero : Json.loads "[01]" = None.
Proof. vm_compute. reflexivity. Qed.

Example demo_loads_float : Json.loads "1.5" = None.
Proof. vm_compute. reflexivity. Qed.

Example demo_save_stdout :
  stdout (save_frame_to_file (Demo.calm 1700000000123) (Demo.frame_in Demo.playing) 7 (Demo.fresh [])).2
  = ["Saved frame 7 to frames/ls20/frame_0007_1700000000123.json"].
Proof. vm_compute. reflexivity. Qed.

Example demo_save_failed :
  stdout (save_frame_to_file (Demo.disk_down 5) (Demo.frame_in Demo.playing) 7 (Demo.fresh [])).2
  = ["Failed to save frame 7: [Errno 13] Permission denied"].
Proof. vm_compute. reflexivity. Qed.

Example demo_save_truncated :
  files (save_frame_to_file (Demo.dump_breaks 5) (Demo.frame_in Demo.playing) 7 (Demo.fresh [])).2
    !! "frames/ls20/frame_0007_5.json"
  = Some (substring 0 20 (Json.dumps (frame_data (Demo.frame_in Demo.playing) 7 5))).
Proof. vm_compute. reflexivity. Qed.

Example demo_truncated_unreadable :
  Json.loads (substring 0 20 (Json.dumps (frame_data (Demo.frame_in Demo.playing) 7 5))) = None.
Proof. vm_compute. reflexivity. Qed.

Example demo_text_head :
  substring 0 20 (Json.dumps (frame_data (Demo.frame_in Demo.playing) 7 5))
  = "{" +:+ Json.newline_indent 1 +:+ String Json.dq "frame_number" +:+ String Json.dq ": ".
Proof. vm_compute. reflexivity. Qed.

Example demo_append_trace :
  trace (append_frame (Demo.calm 5) (Demo.frame_in WIN)
           (append_frame (Demo.calm 5) Demo.empty_frame (Demo.fresh [])).2).2
  = [HistoryAppended Demo.empty_frame; RecorderInvoked Demo.empty_frame 0;
     HistoryAppended (Demo.frame_in WIN); RecorderInvoked (Demo.frame_in WIN) 1].
Proof. reflexivity. Qed.

Example demo_init_dir :
  self_frames_dir (init 1700000000000000 (-7) None "ls20" (Demo.fresh [])).2 = "frames/ls20".
Proof. reflexivity. Qed.

Example demo_init_returns :
  (init 1700000000000000 (-7) None "ls20" (Demo.fresh [])).1 = Returns tt.
Proof. reflexivity. Qed.

Example demo_init_refused :
  (init 1700000000000000 (-7) (Some (Exn OSError "[Errno 13] Permission denied: 'frames'"))
        "ls20" (Demo.fresh [])).1
  = Raises (Exn OSError "[Errno 13] Permission denied: 'frames'").
Proof. reflexivity. Qed.

Example demo_init_nul :
  (init 1700000000000000 (-7) None (String Ascii.zero "ls20") (Demo.fresh [])).1
  = Raises (Exn ValueError "embedded null byte").
Proof. reflexivity. Qed.

Example demo_name : (name "ls20.myawesomeagent" (Demo.fresh [])).1 = Returns "ls20.myawesomeagent.80".
Proof. reflexivity. Qed.

(** ** Formatted integers can be read back *)

Module PyFormatFacts.
Import PyFormat.

Lemma uint_of_string_zeros n d :
  NilEmpty.uint_of_string (zeros n +:+ NilEmpty.string_of_uint d) = Some (Nat.iter n D0 d).
Proof.
  induction n as [|n IH]; simpl.
  - apply NilEmpty.usu.
  - unfold String.app in *. now rewrite IH.
Qed.

Lemma of_uint_leading_zeros n d : N.of_uint (Nat.iter n D0 d) = N.of_uint d.
Proof. induction n as [|n IH]; simpl; [reflexivity | exact IH]. Qed.

Lemma read_digits_pad width m : read_digits (pad width (digits m)) = Some m.
Proof.
  unfold read_digits, pad, digits.
  rewrite uint_of_string_zeros. simpl.
  now rewrite of_uint_leading_zeros, DecimalN.Unsigned.of_to.
Qed.

Lemma all_chars_app p s1 s2 :
  all_chars p (s1 +:+ s2) = all_chars p s1 && all_chars p s2.
Proof.
  induction s1 as [|c s1 IH]; simpl; [reflexivity|].
  unfold String.app in *. now rewrite IH, andb_assoc.
Qed.

Lemma all_chars_mono (p q : ascii -> bool) s :
  (forall c, p c = true -> q c = true) -> all_chars p s = true -> all_chars q s = true.
Proof.
  intros Hpq. induction s as [|c s IH]; simpl; [reflexivity|].
  intros [Hc Hs]%andb_prop. rewrite (Hpq _ Hc). simpl. now apply IH.
Qed.

Lemma string_of_uint_digits d : all_chars is_digit (NilEmpty.string_of_uint d) = true.
Proof. induction d; simpl; auto. Qed.

Lemma zeros_digits n : all_chars is_digit (zeros n) = true.
Proof. induction n; simpl; auto. Qed.

Lemma pad_digits width m : all_chars is_digit (pad width (digits m)) = true.
Proof.
  unfold pad, digits. rewrite all_chars_app, zeros_digits, string_of_uint_digits. reflexivity.
Qed.

Lemma read_int_digits s :
  all_chars is_digit s = true -> read_int s = Z.of_N <$> read_digits s.
Proof.
  destruct s as [|c s]; [reflexivity|]. simpl.
  intros [Hc _]%andb_prop.
  destruct c as [[|] [|] [|] [|] [|] [|] [|] [|]]; try discriminate Hc; reflexivity.
Qed.

Lemma read_int_minus s :
  read_int (String "-" s) = (fun n => - Z.of_N n) <$> read_digits s.
Proof. reflexivity. Qed.

(** [04d] loses nothing: the number is read back from its text. *)
Lemma read_int_format_04d z : read_int (format_04d z) = Some z.
Proof.
  unfold format_04d. destruct (Z.ltb_spec z 0) as [Hneg|Hpos].
  - change (read_int (String "-" (pad 3 (digits (Z.abs_N z)))) = Some z).
    rewrite read_int_minus, read_digits_pad. simpl. f_equal. lia.
  - rewrite read_int_digits by apply pad_digits.
    rewrite read_digits_pad. simpl. f_equal. lia.
Qed.

Lemma format_04d_inj z1 z2 : format_04d z1 = format_04d z2 -> z1 = z2.
Proof.
  intros Heq. pose proof (read_int_format_04d z1) as H1.
  rewrite Heq, read_int_format_04d in H1. now injection H1.
Qed.

Lemma format_04d_numeric z : all_chars numeric_char (format_04d z) = true.
Proof.
  assert (Hd : forall w m, all_chars numeric_char (pad w (digits m)) = true).
  { intros w m. apply (all_chars_mono is_digit); [|apply pad_digits].
    intros c Hc. unfold numeric_char. now rewrite Hc. }
  unfold format_04d. destruct (z <? 0); [|apply Hd].
  simpl. apply Hd.
Qed.

(** Two texts made of numeric characters, each followed by an underscore:
    equal wholes have equal numeric parts. *)
Lemma numeric_prefix_inj p1 p2 r1 r2 :
  all_chars numeric_char p1 = true -> all_chars numeric_char p2 = true ->
  p1 +:+ String "_" r1 = p2 +:+ String "_" r2 -> p1 = p2.
Proof.
  revert p2. induction p1 as [|c1 p1 IH]; intros [|c2 p2]; simpl; intros H1 H2 Heq.
  - reflexivity.
  - injection Heq as <- _. discriminate H2.
  - injection Heq as -> _. discriminate H1.
  - injection Heq as <- Hrest.
    apply andb_prop in H1 as [_ H1]. apply andb_prop in H2 as [_ H2].
    f_equal. now apply IH.
Qed.

Lemma app_inv_head (a s1 s2 : string) : a +:+ s1 = a +:+ s2 -> s1 = s2.
Proof.
  induction a as [|c a IH]; simpl; [easy|].
  intros Heq. injection Heq as Heq. now apply IH.
Qed.

End PyFormatFacts.

(** ** A document is read back from its text *)

Module JsonFacts.
Import Json.

Lemma app_cons c (s t : string) : String c s +:+ t = String c (s +:+ t).
Proof. reflexivity. Qed.

Lemma app_nil_l (t : string) : "" +:+ t = t.
Proof. reflexivity. Qed.

Lemma app_assoc (a b c : string) : (a +:+ b) +:+ c = a +:+ (b +:+ c).
Proof. induction a as [|x a IH]; [reflexivity|]. rewrite !app_cons. now rewrite IH. Qed.

Lemma length_app (a b : string) :
  String.length (a +:+ b) = (String.length a + String.length b)%nat.
Proof. induction a as [|x a IH]; [reflexivity|]. rewrite app_cons. simpl. now rewrite IH. Qed.

(** *** Strings *)

Lemma scan_escape_char c t : scan_string (escape_char c +:+ t) = prepend c (scan_string t).
Proof. destruct c as [[|] [|] [|] [|] [|] [|] [|] [|]]; reflexivity. Qed.

Lemma scan_string_escape s rest : scan_string (escape s +:+ String dq rest) = Some (s, rest).
Proof.
  induction s as [|c s IH]; [reflexivity|].
  simpl escape. rewrite app_assoc, scan_escape_char, IH. reflexivity.
Qed.

(** *** Integers *)

Definition starts_digit (s : string) : bool :=
  match s with
  | String c _ => PyFormat.is_digit c
  | EmptyString => false
  end.

Lemma continues_number_digit rest : continues_number rest = false -> starts_digit rest = false.
Proof.
  destruct rest as [|c rest]; [reflexivity|]. simpl.
  destruct (PyFormat.is_digit c); [discriminate | reflexivity].
Qed.

Lemma span_digits_app d rest :
  PyFormat.all_chars PyFormat.is_digit d = true -> starts_digit rest = false ->
  span_digits (d +:+ rest) = (d, rest).
Proof.
  intros Hd Hrest. induction d as [|c d IH].
  - rewrite app_nil_l. destruct rest as [|c rest]; [reflexivity|].
    simpl in *. now rewrite Hrest.
  - simpl in Hd. apply andb_prop in Hd as [Hc Hd].
    rewrite app_cons. simpl. rewrite Hc, (IH Hd). reflexivity.
Qed.

Lemma to_uint_normal n : unorm (N.to_uint n) = N.to_uint n.
Proof.
  rewrite <- (DecimalN.Unsigned.of_to n) at 2.
  now rewrite DecimalN.Unsigned.to_of.
Qed.

Lemma string_of_uint_nil u : NilEmpty.string_of_uint u = "" -> u = Nil.
Proof. destruct u; simpl; [reflexivity | discriminate ..]. Qed.

Lemma string_of_uint_zero u s :
  NilEmpty.string_of_uint u = String "0" s -> exists u', u = D0 u' /\ NilEmpty.string_of_uint u' = s.
Proof. destruct u; simpl; try discriminate. intros [= <-]. eauto. Qed.

Lemma digits_nonempty n : PyFormat.digits n <> "".
Proof.
  unfold PyFormat.digits. intros Hnil%string_of_uint_nil.
  pose proof (to_uint_normal n) as Hn. rewrite Hnil in Hn. discriminate Hn.
Qed.

Lemma digits_no_leading_zero n c t : PyFormat.digits n <> String "0" (String c t).
Proof.
  unfold PyFormat.digits. intros (u' & Hu & Hrest)%string_of_uint_zero.
  pose proof (to_uint_normal n) as Hn. rewrite Hu in Hn.
  rewrite DecimalFacts.unorm_D0 in Hn. unfold unorm in Hn.
  destruct (nzhead u') eqn:Hhead;
    try (injection Hn as <-; discriminate Hrest);
    try discriminate Hn.
  rewrite <- Hhead in Hn. now apply DecimalFacts.nzhead_nonzero in Hn.
Qed.

Lemma read_digits_digits n : PyFormat.read_digits (PyFormat.digits n) = Some n.
Proof. exact (PyFormatFacts.read_digits_pad 0 n). Qed.

Lemma scan_digits_digits n rest :
  continues_number rest = false -> scan_digits (PyFormat.digits n +:+ rest) = Some (n, rest).
Proof.
  intros Hrest. unfold scan_digits.
  rewrite span_digits_app;
    [|apply PyFormatFacts.string_of_uint_digits | now apply continues_number_digit].
  pose proof (digits_nonempty n) as Hne.
  pose proof (digits_no_leading_zero n) as Hlz.
  pose proof (read_digits_digits n) as Hread.
  destruct (PyFormat.digits n) as [|c d]; [done|].
  assert (Hgo : (if continues_number rest then None
                 else n' ← PyFormat.read_digits (String c d); Some (n', rest))
                = Some (n, rest)).
  { rewrite Hrest, Hread. reflexivity. }
  destruct d as [|c' d'].
  - destruct c as [[|] [|] [|] [|] [|] [|] [|] [|]]; exact Hgo.
  - destruct c as [[|] [|] [|] [|] [|] [|] [|] [|]];
      try exact Hgo; now destruct (Hlz c' d').
Qed.

Lemma scan_number_digit c t :
  PyFormat.is_digit c = true ->
  scan_number (String c t) = ('(n, rest) ← scan_digits (String c t); Some (Z.of_N n, rest)).
Proof. destruct c as [[|] [|] [|] [|] [|] [|] [|] [|]]; try discriminate; reflexivity. Qed.

Lemma digits_head n : exists c t, PyFormat.digits n = String c t /\ PyFormat.is_digit c = true.
Proof.
  pose proof (digits_nonempty n) as Hne.
  pose proof (PyFormatFacts.string_of_uint_digits (N.to_uint n)) as Hall.
  fold (PyFormat.digits n) in Hall.
  destruct (PyFormat.digits n) as [|c t]; [done|].
  simpl in Hall. apply andb_prop in Hall as [Hc _]. eauto.
Qed.

Lemma scan_number_str z rest :
  continues_number rest = false -> scan_number (PyFormat.str z +:+ rest) = Some (z, rest).
Proof.
  intros Hrest. unfold PyFormat.str. destruct (Z.ltb_spec z 0) as [Hneg|Hpos].
  - change (scan_number (String "-" (PyFormat.digits (Z.abs_N z) +:+ rest)) = Some (z, rest)).
    change (('(n, rest') ← scan_digits (PyFormat.digits (Z.abs_N z) +:+ rest);
             Some (- Z.of_N n, rest')) = Some (z, rest)).
    rewrite scan_digits_digits by exact Hrest. simpl. f_equal. f_equal. lia.
  - pose proof (scan_digits_digits (Z.abs_N z) rest Hrest) as Hscan.
    destruct (digits_head (Z.abs_N z)) as (c & t & Hd & Hc).
    rewrite Hd in *. rewrite app_cons in *.
    rewrite scan_number_digit by exact Hc.
    rewrite Hscan. simpl. f_equal. f_equal. lia.
Qed.

(** *** Whitespace and the first character of a value *)

Lemma app_nil_r (s : string) : s +:+ "" = s.
Proof. induction s as [|c s IH]; [reflexivity|]. rewrite app_cons. now rewrite IH. Qed.

Lemma skip_ws_spaces n t : skip_ws (spaces n +:+ t) = skip_ws t.
Proof. induction n as [|n IH]; [reflexivity|]. simpl spaces. rewrite app_cons. exact IH. Qed.

Lemma skip_ws_newline_indent level t : skip_ws (newline_indent level +:+ t) = skip_ws t.
Proof. unfold newline_indent. rewrite app_cons. simpl. apply skip_ws_spaces. Qed.

(** A character that can start a value. *)
Definition value_start (c : ascii) : bool :=
  Ascii.eqb c dq || PyFormat.is_digit c ||
  match c with
  | "-" | "[" | "{" | "n" | "t" | "f" => true
  | _ => false
  end%char.

Definition starts_value (s : string) : Prop :=
  exists c t, s = String c t /\ value_start c = true.

Lemma skip_ws_value s : starts_value s -> skip_ws s = s.
Proof.
  intros (c & t & -> & Hc).
  destruct c as [[|] [|] [|] [|] [|] [|] [|] [|]]; try discriminate Hc; reflexivity.
Qed.

Lemma starts_value_app s t : starts_value s -> starts_value (s +:+ t).
Proof. intros (c & u & -> & Hc). exists c, (u +:+ t). now rewrite app_cons. Qed.

Lemma str_starts_value z : starts_value (PyFormat.str z).
Proof.
  unfold PyFormat.str. destruct (z <? 0).
  - eexists _, _. split; [apply app_cons|reflexivity].
  - destruct (digits_head (Z.abs_N z)) as (c & t & -> & Hc).
    exists c, t. split; [reflexivity|]. unfold value_start. now rewrite Hc, orb_true_r.
Qed.

Lemma dumps_starts_value level j : starts_value (dumps_at level j).
Proof.
  destruct j as [|[|]|z|s|[|x l]|[|kv l]];
    try (eexists _, _; split; [reflexivity|reflexivity]).
  apply str_starts_value.
Qed.

Lemma join_starts_value sep (chunk : string) chunks :
  starts_value chunk -> starts_value (join sep (chunk :: chunks)).
Proof.
  intros Hc. destruct chunks as [|c2 chunks]; [exact Hc|].
  simpl join. now apply starts_value_app.
Qed.

(** *** How [parse_value] dispatches *)

Lemma parse_value_number fuel s :
  starts_value s ->
  (exists c t, s = String c t /\ (PyFormat.is_digit c || Ascii.eqb c "-") = true) ->
  parse_value (S fuel) s = ('(z, rest) ← scan_number s; Some (JInt z, rest)).
Proof.
  intros _ (c & t & -> & Hc).
  destruct c as [[|] [|] [|] [|] [|] [|] [|] [|]]; try discriminate Hc; reflexivity.
Qed.

Lemma parse_value_array fuel s1 s2 :
  skip_ws s1 = s2 -> starts_value s2 ->
  parse_value (S fuel) (String "[" s1)
  = ('(items, rest) ← parse_items fuel s2; Some (JList items, rest)).
Proof.
  intros Hskip (c & t & -> & Hc).
  change (parse_value (S fuel) (String "[" s1))
    with (match skip_ws s1 with
          | String "]" rest => Some (JList [], rest)
          | s2 => '(items, rest) ← parse_items fuel s2; Some (JList items, rest)
          end).
  rewrite Hskip.
  destruct c as [[|] [|] [|] [|] [|] [|] [|] [|]]; try discriminate Hc; reflexivity.
Qed.

Lemma parse_value_object fuel s1 s2 :
  skip_ws s1 = s2 -> starts_value s2 ->
  parse_value (S fuel) (String "{" s1)
  = ('(fields, rest) ← parse_members fuel s2; Some (JDict fields, rest)).
Proof.
  intros Hskip (c & t & -> & Hc).
  change (parse_value (S fuel) (String "{" s1))
    with (match skip_ws s1 with
          | String "}" rest => Some (JDict [], rest)
          | s2 => '(fields, rest) ← parse_members fuel s2; Some (JDict fields, rest)
          end).
  rewrite Hskip.
  destruct c as [[|] [|] [|] [|] [|] [|] [|] [|]]; try discriminate Hc; reflexivity.
Qed.

(** *** Induction on documents *)

Section JsonInduction.
Variable P : json -> Prop.
Hypothesis Hnull : P JNull.
Hypothesis Hbool : forall b, P (JBool b).
Hypothesis Hint : forall z, P (JInt z).
Hypothesis Hstr : forall s, P (JStr s).
Hypothesis Hlist : forall items, Forall P items -> P (JList items).
Hypothesis Hdict : forall fields, Forall (fun kv => P kv.2) fields -> P (JDict fields).

Fixpoint json_nested_ind (j : json) : P j :=
  match j with
  | JNull => Hnull
  | JBool b => Hbool b
  | JInt z => Hint z
  | JStr s => Hstr s
  | JList items =>
      Hlist items
        ((fix all (l : list json) : Forall P l :=
            match l with
            | [] => @List.Forall_nil _ P
            | x :: l' => @List.Forall_cons _ P x l' (json_nested_ind x) (all l')
            end) items)
  | JDict fields =>
      Hdict fields
        ((fix all (l : list (string * json)) : Forall (fun kv => P kv.2) l :=
            match l with
            | [] => @List.Forall_nil _ (fun kv => P kv.2)
            | kv :: l' => @List.Forall_cons _ (fun kv => P kv.2) kv l' (json_nested_ind kv.2) (all l')
            end) fields)
  end.

End JsonInduction.

(** The fuel a document takes to read. *)
Fixpoint size (j : json) : nat :=
  match j with
  | JList items => S (list_sum (map (fun x => S (size x)) items))
  | JDict fields => S (list_sum (map (fun kv => S (size kv.2)) fields))
  | _ => 1
  end.

Lemma size_pos j : (1 <= size j)%nat.
Proof. destruct j; simpl; lia. Qed.

(** What reading a document's text gives, with any text after it that
    does not continue a number. *)
Definition reads_back (j : json) : Prop :=
  forall level rest fuel,
    (size j <= fuel)%nat -> continues_number rest = false ->
    parse_value fuel (dumps_at level j +:+ rest) = Some (j, rest).

Lemma dumps_at_list level x l :
  dumps_at level (JList (x :: l))
  = "[" +:+ newline_indent (S level)
    +:+ join (item_separator (S level)) (map (dumps_at (S level)) (x :: l))
    +:+ newline_indent level +:+ "]".
Proof. reflexivity. Qed.

Lemma dumps_at_dict level kv l :
  dumps_at level (JDict (kv :: l))
  = "{" +:+ newline_indent (S level)
    +:+ join (item_separator (S level))
          (map (fun kv => quote kv.1 +:+ ": " +:+ dumps_at (S level) kv.2) (kv :: l))
    +:+ newline_indent level +:+ "}".
Proof. reflexivity. Qed.

Lemma continues_number_newline level rest :
  continues_number (newline_indent level +:+ rest) = false.
Proof. reflexivity. Qed.

(** One turn of each loop. *)

Lemma parse_items_last fuel s x s1 rest :
  parse_value fuel s = Some (x, s1) -> skip_ws s1 = String "]" rest ->
  parse_items (S fuel) s = Some ([x], rest).
Proof. intros Hx Hs1. simpl. rewrite Hx. simpl. now rewrite Hs1. Qed.

Lemma parse_items_more fuel s x s1 s2 items rest :
  parse_value fuel s = Some (x, s1) -> skip_ws s1 = String "," s2 ->
  parse_items fuel (skip_ws s2) = Some (items, rest) ->
  parse_items (S fuel) s = Some (x :: items, rest).
Proof. intros Hx Hs1 Hitems. simpl. rewrite Hx. simpl. now rewrite Hs1, Hitems. Qed.

Lemma parse_members_last fuel s1 key s2 s3 v s4 rest :
  scan_string s1 = Some (key, s2) -> skip_ws s2 = String ":" s3 ->
  parse_value fuel (skip_ws s3) = Some (v, s4) -> skip_ws s4 = String "}" rest ->
  parse_members (S fuel) (String dq s1) = Some ([(key, v)], rest).
Proof.
  intros Hkey Hs2 Hv Hs4. simpl. rewrite Hkey. simpl. rewrite Hs2, Hv. simpl.
  now rewrite Hs4.
Qed.

Lemma parse_members_more fuel s1 key s2 s3 v s4 s5 fields rest :
  scan_string s1 = Some (key, s2) -> skip_ws s2 = String ":" s3 ->
  parse_value fuel (skip_ws s3) = Some (v, s4) -> skip_ws s4 = String "," s5 ->
  parse_members fuel (skip_ws s5) = Some (fields, rest) ->
  parse_members (S fuel) (String dq s1) = Some ((key, v) :: fields, rest).
Proof.
  intros Hkey Hs2 Hv Hs4 Hfields. simpl. rewrite Hkey. simpl. rewrite Hs2, Hv. simpl.
  now rewrite Hs4, Hfields.
Qed.

Lemma list_sum_cons n l : list_sum (n :: l) = (n + list_sum l)%nat.
Proof. reflexivity. Qed.

Lemma join_more {A : Type} sep (c1 : string) (f : A -> string) x l :
  join sep (c1 :: map f (x :: l)) = c1 +:+ sep +:+ join sep (map f (x :: l)).
Proof. reflexivity. Qed.

Lemma item_text_shape (d : string) inner (more tail : string) :
  (d +:+ item_separator inner +:+ more) +:+ tail
  = d +:+ String "," (newline_indent inner +:+ (more +:+ tail)).
Proof. unfold item_separator. rewrite !app_assoc. reflexivity. Qed.

Lemma member_text_shape k (d tail : string) :
  (quote k +:+ ": " +:+ d) +:+ tail
  = String dq (escape k +:+ String dq (String ":" (String " " (d +:+ tail)))).
Proof.
  unfold quote.
  repeat (rewrite app_cons || rewrite app_assoc || rewrite app_nil_l).
  reflexivity.
Qed.

Lemma parse_items_dumps items :
  Forall reads_back items -> items <> [] ->
  forall inner outer rest fuel,
    (list_sum (map (fun x => S (size x)) items) <= fuel)%nat ->
    parse_items fuel
      (join (item_separator inner) (map (dumps_at inner) items)
       +:+ newline_indent outer +:+ String "]" rest)
    = Some (items, rest).
Proof.
  induction 1 as [|x l Hx Hl IH]; [done|]. intros _ inner outer rest fuel Hfuel.
  rewrite map_cons, list_sum_cons in Hfuel.
  destruct fuel as [|fuel]; [lia|].
  destruct l as [|y l'].
  - cbn [map join]. eapply parse_items_last.
    + apply Hx; [lia | apply continues_number_newline].
    + rewrite skip_ws_newline_indent. reflexivity.
  - rewrite map_cons, join_more, item_text_shape.
    eapply parse_items_more.
    + apply Hx; [lia | reflexivity].
    + reflexivity.
    + rewrite skip_ws_newline_indent.
      rewrite skip_ws_value
        by (apply starts_value_app, join_starts_value, dumps_starts_value).
      apply IH; [done|]. lia.
Qed.

Lemma parse_members_dumps fields :
  Forall (fun kv => reads_back kv.2) fields -> fields <> [] ->
  forall inner outer rest fuel,
    (list_sum (map (fun kv => S (size kv.2)) fields) <= fuel)%nat ->
    parse_members fuel
      (join (item_separator inner)
         (map (fun kv => quote kv.1 +:+ ": " +:+ dumps_at inner kv.2) fields)
       +:+ newline_indent outer +:+ String "}" rest)
    = Some (fields, rest).
Proof.
  induction 1 as [|[k v] l Hv Hl IH]; [done|]. intros _ inner outer rest fuel Hfuel.
  rewrite map_cons, list_sum_cons in Hfuel. cbn [snd] in Hfuel, Hv.
  destruct fuel as [|fuel]; [lia|].
  destruct l as [|kv l'].
  - cbn [map join fst snd]. rewrite member_text_shape.
    eapply parse_members_last.
    + apply scan_string_escape.
    + reflexivity.
    + change (skip_ws (String " " ?t)) with (skip_ws t).
      rewrite skip_ws_value by apply starts_value_app, dumps_starts_value.
      apply Hv; [lia | apply continues_number_newline].
    + rewrite skip_ws_newline_indent. reflexivity.
  - rewrite map_cons, join_more. cbn [fst snd].
    rewrite app_assoc, member_text_shape.
    unfold item_separator at 1. rewrite app_assoc, app_cons, app_nil_l.
    eapply parse_members_more.
    + apply scan_string_escape.
    + reflexivity.
    + change (skip_ws (String " " ?t)) with (skip_ws t).
      rewrite skip_ws_value by apply starts_value_app, dumps_starts_value.
      apply Hv; [lia | reflexivity].
    + reflexivity.
    + rewrite skip_ws_newline_indent.
      rewrite skip_ws_value.
      * apply IH; [done|]. lia.
      * apply starts_value_app. rewrite map_cons. apply join_starts_value.
        eexists _, _. split; reflexivity.
Qed.

Lemma text_shape_open (c close : ascii) (a b : string) level tail :
  (String c "" +:+ a +:+ b +:+ newline_indent level +:+ String close "") +:+ tail
  = String c (a +:+ (b +:+ newline_indent level +:+ String close tail)).
Proof.
  repeat (rewrite app_cons || rewrite app_assoc || rewrite app_nil_l).
  reflexivity.
Qed.

(** Every document is read back from its text. *)
Theorem parse_value_dumps j : reads_back j.
Proof.
  induction j as [|b|z|s|items IH|fields IH] using json_nested_ind;
    intros level rest fuel Hfuel Hrest;
    (destruct fuel as [|fuel]; [simpl in Hfuel; lia|]).
  - reflexivity.
  - destruct b; reflexivity.
  - cbn [dumps_at].
    rewrite parse_value_number.
    + rewrite scan_number_str by exact Hrest. reflexivity.
    + apply starts_value_app, str_starts_value.
    + unfold PyFormat.str. destruct (z <? 0).
      * eexists _, _. split; [rewrite !app_cons; reflexivity | reflexivity].
      * destruct (digits_head (Z.abs_N z)) as (c & t & -> & Hc).
        exists c, (t +:+ rest). split; [apply app_cons|]. now rewrite Hc.
  - cbn [dumps_at]. unfold quote. rewrite app_cons, app_assoc, app_cons, app_nil_l.
    change (parse_value (S fuel) (String dq ?t))
      with ('(str, rest') ← scan_string t; Some (JStr str, rest')).
    rewrite scan_string_escape. reflexivity.
  - destruct items as [|x l]; [reflexivity|].
    rewrite dumps_at_list, text_shape_open.
    erewrite parse_value_array.
    + rewrite parse_items_dumps; [reflexivity | exact IH | done |].
      simpl in Hfuel. simpl. lia.
    + rewrite skip_ws_newline_indent. apply skip_ws_value.
      apply starts_value_app. rewrite map_cons.
      apply join_starts_value, dumps_starts_value.
    + apply starts_value_app. rewrite map_cons.
      apply join_starts_value, dumps_starts_value.
  - destruct fields as [|kv l]; [reflexivity|].
    rewrite dumps_at_dict, text_shape_open.
    assert (Hq : starts_value
                   (join (item_separator (S level))
                      (map (fun kv => quote kv.1 +:+ ": " +:+ dumps_at (S level) kv.2) (kv :: l))
                    +:+ newline_indent level +:+ String "}" rest)).
    { apply starts_value_app. rewrite map_cons. apply join_starts_value.
      eexists _, _. split; reflexivity. }
    erewrite parse_value_object.
    + rewrite parse_members_dumps; [reflexivity | exact IH | done |].
      simpl in Hfuel. simpl. lia.
    + rewrite skip_ws_newline_indent. now apply skip_ws_value.
    + exact Hq.
Qed.

(** *** The fuel [loads] gives is enough *)

Lemma sum_le_join {A : Type} (w : A -> nat) (f : A -> string) sep l :
  (1 <= String.length sep)%nat ->
  Forall (fun x => (w x <= String.length (f x))%nat) l ->
  (list_sum (map (fun x => S (w x)) l) <= String.length (join sep (map f l)) + 1)%nat.
Proof.
  intros Hsep. induction 1 as [|x l Hx Hl IH]; [simpl; lia|].
  rewrite !map_cons, list_sum_cons. destruct l as [|y l'].
  - simpl. lia.
  - rewrite join_more, !length_app. lia.
Qed.

Lemma item_separator_length level : (1 <= String.length (item_separator level))%nat.
Proof. unfold item_separator. rewrite app_cons. simpl. lia. Qed.

Lemma size_le_length j : forall level, (size j <= String.length (dumps_at level j))%nat.
Proof.
  induction j as [|b|z|s|items IH|fields IH] using json_nested_ind; intros level.
  - simpl. lia.
  - destruct b; simpl; lia.
  - cbn [dumps_at size]. destruct (str_starts_value z) as (c & t & -> & _). simpl. lia.
  - simpl. lia.
  - destruct items as [|x l]; [simpl; lia|].
    rewrite dumps_at_list, !length_app. cbn [size].
    pose proof (sum_le_join size (dumps_at (S level)) (item_separator (S level)) (x :: l)
                  (item_separator_length (S level))) as Hsum.
    simpl String.length at 1 4.
    enough (list_sum (map (fun x => S (size x)) (x :: l))
            <= String.length (join (item_separator (S level)) (map (dumps_at (S level)) (x :: l))) + 1)%nat
      by lia.
    apply Hsum. eapply Forall_impl; [exact IH|]. intros y Hy. apply Hy.
  - destruct fields as [|kv l]; [simpl; lia|].
    rewrite dumps_at_dict, !length_app. cbn [size].
    pose proof (sum_le_join (fun kv : string * json => size kv.2)
                  (fun kv => quote kv.1 +:+ ": " +:+ dumps_at (S level) kv.2)
                  (item_separator (S level)) (kv :: l)
                  (item_separator_length (S level))) as Hsum.
    simpl String.length at 1 4.
    enough (list_sum (map (fun kv : string * json => S (size kv.2)) (kv :: l))
            <= String.length
                 (join (item_separator (S level))
                    (map (fun kv => quote kv.1 +:+ ": " +:+ dumps_at (S level) kv.2) (kv :: l))) + 1)%nat
      by lia.
    apply Hsum. eapply Forall_impl; [exact IH|]. intros [k v] Hv. cbn [fst snd] in *.
    rewrite !length_app. specialize (Hv (S level)). lia.
Qed.

(** [json.loads(json.dumps(doc, indent=2)) == doc]. *)
Theorem loads_dumps j : loads (dumps j) = Some j.
Proof.
  unfold loads, dumps.
  rewrite skip_ws_value by apply dumps_starts_value.
  rewrite <- (app_nil_r (dumps_at 0 j)) at 2.
  rewrite parse_value_dumps; [reflexivity | | reflexivity].
  pose proof (size_le_length j 0). lia.
Qed.

End JsonFacts.

(** ** Record names *)

Lemma record_filename_inj k1 t1 k2 t2 :
  record_filename k1 t1 = record_filename k2 t2 -> k1 = k2.
Proof.
  unfold record_filename. intros Heq.
  apply PyFormatFacts.app_inv_head in Heq.
  apply PyFormatFacts.format_04d_inj.
  eapply PyFormatFacts.numeric_prefix_inj;
    [apply PyFormatFacts.format_04d_numeric .. | exact Heq].
Qed.

Lemma record_filename_relative k t : startswith_sep (record_filename k t) = false.
Proof. reflexivity. Qed.

Lemma path_join_inj dir f1 f2 :
  startswith_sep f1 = false -> startswith_sep f2 = false ->
  path_join dir f1 = path_join dir f2 -> f1 = f2.
Proof.
  unfold path_join. intros -> ->.
  destruct (String.eqb dir "" || endswith_sep dir); intros Heq.
  - now apply PyFormatFacts.app_inv_head in Heq.
  - apply PyFormatFacts.app_inv_head in Heq.
    now apply (PyFormatFacts.app_inv_head "/") in Heq.
Qed.

Lemma record_filepath_inj dir k1 t1 k2 t2 :
  record_filepath dir k1 t1 = record_filepath dir k2 t2 -> k1 = k2.
Proof.
  unfold record_filepath. intros Heq.
  apply path_join_inj in Heq; [|apply record_filename_relative ..].
  now apply record_filename_inj in Heq.
Qed.

(** ** Properties of the agent *)

Ltac run :=
  unfold mbind, M_bind, mret, M_ret, modify, gets, emit, print, raise, try_except; simpl.

Section AgentProperties.
Context `{RS : RandomSource} `{AS : ActionSchema}.

Implicit Types (s : State) (fd latest : FrameData) (frames : list FrameData).

(** What neither decision operation touches: the agent's own fields, the
    storage, the console and the log of recorder calls. *)
Definition same_session s s' : Prop :=
  self_game_id s' = self_game_id s /\ self_frames_dir s' = self_frames_dir s /\
  self_frames s' = self_frames s /\ files s' = files s /\
  stdout s' = stdout s /\ trace s' = trace s.

Lemma same_session_refl s : same_session s s.
Proof. repeat split. Qed.

Lemma random_randbelow_spec n s :
  random_randbelow n s
  = (Returns (randbelow n (random_state s)).1,
     set_random_state (randbelow n (random_state s)).2 s).
Proof. unfold random_randbelow. now destruct (randbelow n (random_state s)). Qed.

Lemma random_choice_spec {A : Type} (seq : list A) s :
  seq <> [] ->
  exists a, a ∈ seq /\
    random_choice seq s
    = (Returns a, set_random_state (randbelow (Z.of_nat (length seq)) (random_state s)).2 s).
Proof.
  intros Hne. destruct seq as [|a0 seq']; [done|].
  set (seq := a0 :: seq') in *.
  pose proof (randbelow_range (Z.of_nat (length seq)) (random_state s)) as Hr.
  assert (Hlen : 0 < Z.of_nat (length seq)) by (simpl; lia).
  specialize (Hr Hlen).
  destruct (lookup_lt_is_Some_2 seq (Z.to_nat (randbelow (Z.of_nat (length seq)) (random_state s)).1))
    as [a Ha]; [lia|].
  exists a. split; [eapply list_elem_of_lookup_2, Ha|].
  change (random_choice seq s) with
    ((i ← random_randbelow (Z.of_nat (length seq));
      match getitem seq i with
      | Some a => mret a
      | None => raise (Exn IndexError "list index out of range")
      end) s).
  unfold mbind, M_bind. rewrite random_randbelow_spec.
  unfold getitem.
  destruct (Z.leb_spec 0 (randbelow (Z.of_nat (length seq)) (random_state s)).1); [|lia].
  now rewrite Ha.
Qed.

Lemma random_randint_spec a b s :
  a <= b ->
  exists r, a <= r <= b /\
    random_randint a b s
    = (Returns r, set_random_state (randbelow (b + 1 - a) (random_state s)).2 s).
Proof.
  intros Hab.
  pose proof (randbelow_range (b + 1 - a) (random_state s)) as Hr.
  exists (a + (randbelow (b + 1 - a) (random_state s)).1). split; [lia|].
  unfold random_randint. destruct (Z.ltb_spec 0 (b + 1 - a)); [|lia].
  unfold mbind, M_bind. now rewrite random_randbelow_spec.
Qed.

Lemma update_attrs_eq a f (m : GameAction -> ActionAttrs) : update_attrs a f m a = f (m a).
Proof. unfold update_attrs. now rewrite decide_True. Qed.

Lemma update_attrs_ne a b f (m : GameAction -> ActionAttrs) :
  b <> a -> update_attrs a f m b = m b.
Proof. intros Hne. unfold update_attrs. now rewrite decide_False. Qed.

Lemma is_simple_not_complex a : is_simple a = true -> is_complex a = false.
Proof.
  unfold is_simple, is_complex. intros Hs%bool_decide_eq_true.
  rewrite Hs. reflexivity.
Qed.

(** The second half of [choose_action]: filling in the chosen action. *)
Definition fill_in (action : GameAction) : M unit :=
  if is_simple action then
    set_reasoning action
      (JStr ("RNG told me to pick " +:+ value_str (action_value action)))
  else if is_complex action then
    x ← random_randint 0 63;
    y ← random_randint 0 63;
    set_data action (JDict [("x", JInt x); ("y", JInt y)]);;
    set_reasoning action
      (JDict [("desired_action", JStr (value_str (action_value action)));
              ("my_reason", JStr "RNG said so!")])
  else mret tt.

Lemma choose_action_unfold frames latest :
  choose_action frames latest
  = (action ← (if bool_decide (state latest ∈ [NOT_PLAYED; GAME_OVER])
               then mret RESET
               else random_choice (filter (fun a => a ≠ RESET) GameAction_members));
     fill_in action;; mret action).
Proof. reflexivity. Qed.

Lemma fill_in_spec a s :
  exists s', fill_in a s = (Returns tt, s') /\ same_session s s' /\
    (forall b, b <> a -> member_attrs s' b = member_attrs s b) /\
    (is_complex a = true ->
     exists x y, 0 <= x <= 63 /\ 0 <= y <= 63 /\
       action_data (member_attrs s' a) = Some (JDict [("x", JInt x); ("y", JInt y)])) /\
    (is_complex a = false -> random_state s' = random_state s) /\
    (is_simple a = true ->
     reasoning (member_attrs s' a)
     = Some (JStr ("RNG told me to pick " +:+ value_str (action_value a)))).
Proof.
  unfold fill_in. destruct (is_simple a) eqn:Hsimple.
  - eexists. split; [reflexivity|]. simpl.
    split; [now unfold same_session|].
    split; [intros b Hb; now apply update_attrs_ne|].
    split; [rewrite (is_simple_not_complex a Hsimple); discriminate|].
    split; [reflexivity|].
    intros _. now rewrite update_attrs_eq.
  - destruct (is_complex a) eqn:Hcomplex.
    + destruct (random_randint_spec 0 63 s) as (x & Hx & Ex); [lia|].
      destruct (random_randint_spec 0 63
                  (set_random_state (randbelow (63 + 1 - 0) (random_state s)).2 s))
        as (y & Hy & Ey); [lia|].
      eexists. split.
      { unfold mbind, M_bind at 1. rewrite Ex.
        unfold mbind, M_bind at 1. rewrite Ey. reflexivity. }
      simpl.
      split; [now unfold same_session|].
      split; [intros b Hb; now rewrite !update_attrs_ne|].
      split; [|split; discriminate].
      intros _. exists x, y. rewrite !update_attrs_eq. simpl. auto.
    + exists s. split; [reflexivity|].
      split; [now unfold same_session|].
      repeat split; try discriminate; auto.
Qed.

Lemma reset_test_iff latest :
  bool_decide (state latest ∈ [NOT_PLAYED; GAME_OVER]) = true
  <-> state latest = NOT_PLAYED \/ state latest = GAME_OVER.
Proof.
  rewrite bool_decide_eq_true, elem_of_cons, list_elem_of_singleton. reflexivity.
Qed.

(** Every run of [choose_action]: either there is nothing to choose from,
    or an action comes back with its attributes filled in. *)
Lemma choose_action_cases frames latest s :
  (~ (state latest = NOT_PLAYED \/ state latest = GAME_OVER) /\
   filter (fun a => a ≠ RESET) GameAction_members = [] /\
   exists e, choose_action frames latest s = (Raises e, s))
  \/
  (exists a s', choose_action frames latest s = (Returns a, s') /\
     (a = RESET <-> state latest = NOT_PLAYED \/ state latest = GAME_OVER) /\
     same_session s s' /\
     (forall b, b <> a -> member_attrs s' b = member_attrs s b) /\
     (is_complex a = true ->
      exists x y, 0 <= x <= 63 /\ 0 <= y <= 63 /\
        action_data (member_attrs s' a) = Some (JDict [("x", JInt x); ("y", JInt y)])) /\
     (state latest = NOT_PLAYED \/ state latest = GAME_OVER ->
      is_complex a = false -> random_state s' = random_state s) /\
     (is_simple a = true ->
      reasoning (member_attrs s' a)
      = Some (JStr ("RNG told me to pick " +:+ value_str (action_value a))))).
Proof.
  rewrite choose_action_unfold.
  destruct (bool_decide (state latest ∈ [NOT_PLAYED; GAME_OVER])) eqn:Hreset.
  - apply reset_test_iff in Hreset. right.
    destruct (fill_in_spec RESET s) as (s' & Hfill & Hsess & Hothers & Hcomplex & Hrng & Hsimple).
    exists RESET, s'. split; [|tauto].
    unfold mbind, M_bind, mret, M_ret. now rewrite Hfill.
  - assert (Hplay : ~ (state latest = NOT_PLAYED \/ state latest = GAME_OVER)).
    { rewrite <- reset_test_iff, Hreset. discriminate. }
    destruct (filter (fun a => a ≠ RESET) GameAction_members) as [|a0 rest] eqn:Hfilter.
    + left. split; [exact Hplay|]. split; [reflexivity|]. eexists. reflexivity.
    + right. rewrite <- Hfilter.
      destruct (random_choice_spec (filter (fun a => a ≠ RESET) GameAction_members) s)
        as (a & [Ha _]%list_elem_of_filter & Hchoice); [now rewrite Hfilter|].
      destruct (fill_in_spec a
                  (set_random_state
                     (randbelow (Z.of_nat (length (filter (fun a => a ≠ RESET) GameAction_members)))
                        (random_state s)).2 s))
        as (s' & Hfill & Hsess & Hothers & Hcomplex & Hrng & Hsimple).
      exists a, s'. split.
      { unfold mbind, M_bind at 1. rewrite Hchoice.
        unfold mbind, M_bind, mret, M_ret. now rewrite Hfill. }
      split; [tauto|]. split; [exact Hsess|]. split; [exact Hothers|].
      split; [exact Hcomplex|]. split; [tauto|exact Hsimple].
Qed.

(** C1.  For every history, latest frame and process state,
    [choose_action] returns RESET exactly when the latest frame's state is
    NOT_PLAYED or GAME_OVER, so in every other state what it returns is not
    RESET; and it does return an action as soon as the schema has an action
    kind besides RESET. *)
Theorem choose_action_reset_iff frames latest s :
  ((choose_action frames latest s).1 = Returns RESET
   <-> state latest = NOT_PLAYED \/ state latest = GAME_OVER) /\
  ((exists a, a ∈ GameAction_members /\ a <> RESET) ->
   exists a, (choose_action frames latest s).1 = Returns a).
Proof.
  destruct (choose_action_cases frames latest s)
    as [(Hplay & Hnil & e & Hraise) | (a & s' & Hrun & Hiff & _)].
  - rewrite Hraise. simpl. split; [split; [discriminate | tauto]|].
    intros (a0 & Hmem & Hne). exfalso.
    eapply filter_nil_not_elem_of; [exact Hnil | exact Hne | exact Hmem].
  - rewrite Hrun. simpl. split; [|eauto].
    rewrite <- Hiff. split; [now intros [= ->] | now intros ->].
Qed.

(** C3.  When [choose_action] returns a complex action, the payload
    attached to that action has exactly the two integer fields x and y, and
    both lie in the closed range from 0 to 63, whatever the generator
    draws. *)
Theorem complex_payload_within_grid frames latest s a s' :
  choose_action frames latest s = (Returns a, s') ->
  is_complex a = true ->
  exists x y,
    action_data (member_attrs s' a) = Some (JDict [("x", JInt x); ("y", JInt y)]) /\
    0 <= x <= 63 /\ 0 <= y <= 63.
Proof.
  intros Hrun Hcomplex.
  destruct (choose_action_cases frames latest s)
    as [(_ & _ & e & Hraise) | (a' & s'' & Hrun' & _ & _ & _ & Hdata & _)].
  - rewrite Hrun in Hraise. discriminate Hraise.
  - rewrite Hrun in Hrun'. injection Hrun' as <- <-.
    destruct (Hdata Hcomplex) as (x & y & Hx & Hy & Hpayload).
    exists x, y. auto.
Qed.

(** C2.  For every history, latest frame and process state, [is_done]
    returns a boolean that is true exactly when the latest frame's state is
    WIN; on GAME_OVER, as on any other state than WIN, it returns false. *)
Theorem is_done_iff_win frames latest s :
  exists b, (is_done frames latest s).1 = Returns b /\
    (b = true <-> state latest = WIN) /\
    (state latest = GAME_OVER -> b = false).
Proof.
  exists (bool_decide (state latest = WIN)).
  split; [unfold is_done, any; simpl; now rewrite orb_false_r|].
  split; [apply bool_decide_eq_true|].
  intros Hover. apply bool_decide_eq_false. rewrite Hover. discriminate.
Qed.

(** C10.  The result of [is_done] does not depend on the history: two
    histories, empty or not, paired with the same latest frame give the same
    boolean, in whatever process states the two calls are made; in one
    process state the two calls have the same outcome and final state. *)
Theorem is_done_ignores_history frames1 frames2 latest s1 s2 :
  (is_done frames1 latest s1).1 = (is_done frames2 latest s2).1 /\
  (is_done [] latest s1).1 = (is_done frames2 latest s2).1 /\
  is_done frames1 latest s1 = is_done frames2 latest s1.
Proof. unfold is_done. run. auto. Qed.

(** [is_done] is a pure function of the latest frame: it returns, and the
    process state is what it was. *)
Lemma is_done_pure frames latest s :
  is_done frames latest s = (Returns (bool_decide (state latest = WIN)), s).
Proof. unfold is_done, any. run. now rewrite orb_false_r. Qed.

(** *** The recorder *)

Definition fault_exn (f : io_fault) : exn :=
  match f with
  | OpenFails msg => Exn OSError msg
  | DumpFails e _ => e
  end.

Definition saved_line (dir : string) (frame_number timestamp : Z) : string :=
  "Saved frame " +:+ PyFormat.str frame_number +:+ " to "
  +:+ record_filepath dir frame_number timestamp.

Definition failed_line (frame_number : Z) (e : exn) : string :=
  "Failed to save frame " +:+ PyFormat.str frame_number +:+ ": " +:+ exn_str e.

(** What one call of the recorder does, by case: an empty frame, a write
    that goes through, a file that cannot be opened, a dump that breaks. *)
Lemma save_frame_to_file_cases env fd k s :
  exists s', save_frame_to_file env fd k s = (Returns tt, s') /\
    self_game_id s' = self_game_id s /\ self_frames_dir s' = self_frames_dir s /\
    self_frames s' = self_frames s /\ random_state s' = random_state s /\
    member_attrs s' = member_attrs s /\
    trace s' = trace s ++ [RecorderInvoked fd k] /\
    (if is_empty fd then files s' = files s /\ stdout s' = stdout s
     else match fault env with
          | None =>
              files s' = <[record_filepath (self_frames_dir s) k (time_ms env)
                           := Json.dumps (frame_data fd k (time_ms env))]> (files s) /\
              stdout s' = stdout s ++ [saved_line (self_frames_dir s) k (time_ms env)]
          | Some (OpenFails msg) =>
              files s' = files s /\
              stdout s' = stdout s ++ [failed_line k (Exn OSError msg)]
          | Some (DumpFails e written) =>
              files s' = <[record_filepath (self_frames_dir s) k (time_ms env)
                           := substring 0 written (Json.dumps (frame_data fd k (time_ms env)))]>
                           (files s) /\
              stdout s' = stdout s ++ [failed_line k e]
          end).
Proof.
  unfold save_frame_to_file, open_w, json_dump.
  destruct (is_empty fd); simpl.
  - eexists. split; [reflexivity|]. simpl. auto 10.
  - destruct (fault env) as [[msg|e written]|]; run.
    + eexists. split; [reflexivity|]. simpl. auto 10.
    + eexists. split; [reflexivity|]. simpl.
      repeat (split; [reflexivity|]). split; [|reflexivity].
      apply insert_insert_eq.
    + eexists. split; [reflexivity|]. simpl.
      repeat (split; [reflexivity|]). split; [|reflexivity].
      apply insert_insert_eq.
Qed.

(** C4.  For every frame, empty or not, every sequence number and every
    behaviour of the storage, [save_frame_to_file] returns normally; when
    the frame is not empty and opening or writing the file fails, the
    failure is caught and reported on the console. *)
Theorem save_frame_to_file_contains_failures env fd k s :
  exists s', save_frame_to_file env fd k s = (Returns tt, s') /\
    (forall f, is_empty fd = false -> fault env = Some f ->
               stdout s' = stdout s ++ [failed_line k (fault_exn f)]).
Proof.
  destruct (save_frame_to_file_cases env fd k s)
    as (s' & Hrun & _ & _ & _ & _ & _ & _ & Hcase).
  exists s'. split; [exact Hrun|].
  intros f Hfd Hf. rewrite Hfd, Hf in Hcase.
  destruct f as [msg|e]; apply Hcase.
Qed.

(** The recorder's record operation went through: it returned, exactly the
    file named after the sequence number and the clock was written, its
    text parses as a document, and the document's fields read back as the
    sequence number, the clock value and the frame's fields. *)
Definition records_frame (env : Env) fd (k : Z) s : Prop :=
  exists s' text doc,
    save_frame_to_file env fd k s = (Returns tt, s') /\
    files s' = <[record_filepath (self_frames_dir s) k (time_ms env) := text]> (files s) /\
    Json.loads text = Some doc /\
    json_get "frame_number" doc = Some (JInt k) /\
    json_get "timestamp" doc = Some (JInt (time_ms env)) /\
    json_get "game_id" doc = Some (JStr (game_id fd)) /\
    json_get "frame" doc = Some (JList (frame fd)) /\
    json_get "state" doc = Some (JStr (GameState_value (state fd))) /\
    json_get "score" doc = Some (JInt (score fd)) /\
    json_get "guid" doc = Some (JStr (guid fd)) /\
    json_get "full_reset" doc = Some (JBool (full_reset fd)) /\
    json_get "available_actions" doc
    = Some (JList (map (fun a => value_json (action_value a)) (available_actions fd))).

(** C5, as amended.  For every non-empty frame and sequence number k, when
    the storage accepts the write, one call of [save_frame_to_file]
    produces exactly one record, tagged with k, whose fields read back
    equal to the frame's (the state and the actions by their enumeration
    values). *)
Theorem save_frame_to_file_roundtrip env fd k s :
  is_empty fd = false -> fault env = None -> records_frame env fd k s.
Proof.
  intros Hfd Hok.
  destruct (save_frame_to_file_cases env fd k s)
    as (s' & Hrun & _ & _ & _ & _ & _ & _ & Hcase).
  rewrite Hfd, Hok in Hcase. destruct Hcase as [Hfiles _].
  exists s', (Json.dumps (frame_data fd k (time_ms env))), (frame_data fd k (time_ms env)).
  split; [exact Hrun|]. split; [exact Hfiles|]. split; [apply JsonFacts.loads_dumps|].
  repeat split.
Qed.

(** C6.  For every empty frame and sequence number, [save_frame_to_file]
    returns normally, leaves the storage as it was and prints nothing. *)
Theorem save_frame_to_file_skips_empty env fd k s :
  is_empty fd = true ->
  exists s', save_frame_to_file env fd k s = (Returns tt, s') /\
    files s' = files s /\ stdout s' = stdout s.
Proof.
  intros Hfd.
  destruct (save_frame_to_file_cases env fd k s)
    as (s' & Hrun & _ & _ & _ & _ & _ & _ & Hcase).
  rewrite Hfd in Hcase. exists s'. tauto.
Qed.

(** C7.  Records with distinct sequence numbers get distinct file names
    and distinct paths in one frames directory, whatever the two clock
    values are and in particular when they are equal; written one after the
    other, the second does not replace the first: both are in the storage
    afterwards. *)
Theorem records_do_not_collide dir k1 k2 t1 t2 :
  k1 <> k2 ->
  record_filename k1 t1 <> record_filename k2 t2 /\
  record_filepath dir k1 t1 <> record_filepath dir k2 t2 /\
  forall env1 env2 fd1 fd2 s,
    time_ms env1 = t1 -> time_ms env2 = t2 -> self_frames_dir s = dir ->
    is_empty fd1 = false -> is_empty fd2 = false ->
    fault env1 = None -> fault env2 = None ->
    exists s1 s2,
      save_frame_to_file env1 fd1 k1 s = (Returns tt, s1) /\
      save_frame_to_file env2 fd2 k2 s1 = (Returns tt, s2) /\
      files s2 !! record_filepath dir k1 t1 = Some (Json.dumps (frame_data fd1 k1 t1)) /\
      files s2 !! record_filepath dir k2 t2 = Some (Json.dumps (frame_data fd2 k2 t2)).
Proof.
  intros Hk.
  assert (Hpath : record_filepath dir k1 t1 <> record_filepath dir k2 t2).
  { intros Heq. apply Hk. eapply record_filepath_inj, Heq. }
  split; [intros Heq; apply Hk; eapply record_filename_inj, Heq|].
  split; [exact Hpath|].
  intros env1 env2 fd1 fd2 s <- <- <- Hfd1 Hfd2 Hok1 Hok2.
  destruct (save_frame_to_file_cases env1 fd1 k1 s)
    as (s1 & Hrun1 & _ & Hdir & _ & _ & _ & _ & Hcase1).
  destruct (save_frame_to_file_cases env2 fd2 k2 s1)
    as (s2 & Hrun2 & _ & _ & _ & _ & _ & _ & Hcase2).
  rewrite Hfd1, Hok1 in Hcase1. destruct Hcase1 as [Hfiles1 _].
  rewrite Hfd2, Hok2, Hdir in Hcase2. destruct Hcase2 as [Hfiles2 _].
  exists s1, s2. split; [exact Hrun1|]. split; [exact Hrun2|].
  rewrite Hfiles2, Hfiles1. split.
  - rewrite lookup_insert_ne by congruence. apply lookup_insert_eq.
  - apply lookup_insert_eq.
Qed.

Lemma choose_action_same_session frames latest s :
  same_session s (choose_action frames latest s).2.
Proof.
  destruct (choose_action_cases frames latest s)
    as [(_ & _ & e & Hraise) | (a & s' & Hrun & _ & Hsess & _)].
  - rewrite Hraise. apply same_session_refl.
  - rewrite Hrun. exact Hsess.
Qed.

(** The recorder left no mark between two states: no file was written,
    nothing was printed, no call of it was logged. *)
Definition recorder_idle s s' : Prop :=
  files s' = files s /\ stdout s' = stdout s /\ trace s' = trace s.

Lemma init_recorder_idle now_us hash_gid makedirs_refusal gid s :
  recorder_idle s (init now_us hash_gid makedirs_refusal gid s).2.
Proof.
  unfold init, Agent_init, os_makedirs. run.
  destruct makedirs_refusal as [e|]; [now unfold recorder_idle|].
  now destruct (has_nul _).
Qed.

(** The history append that [append_frame] starts with: it returns, puts
    the frame at the end of the history and touches neither the storage nor
    the console. *)
Lemma Agent_append_frame_spec fd s :
  exists s0, Agent_append_frame fd s = (Returns tt, s0) /\
    self_frames s0 = self_frames s ++ [fd] /\
    self_frames_dir s0 = self_frames_dir s /\
    files s0 = files s /\ stdout s0 = stdout s /\
    trace s0 = trace s ++ [HistoryAppended fd].
Proof. unfold Agent_append_frame. run. eexists. split; [reflexivity|]. simpl. auto. Qed.

(** C8.  [append_frame] first appends the frame to the history, which
    writes no file and prints nothing, and then does what one call of
    [save_frame_to_file] does on the state the append left, with that same
    frame and with the index the frame now has in the history (the new
    length minus one, which is the old length): the whole call is that one
    call of the recorder.  It returns normally; the log shows the append
    followed by one recorder call; and for a frame that is not empty and a
    storage that accepts the write, the storage afterwards is the storage
    before plus the one record of that frame under that index, and the
    console has the one line that reports it.  No other method of the
    agent calls the recorder: [__init__], [name], [is_done] and
    [choose_action] write no file, print nothing and leave the log of
    recorder calls as it was. *)
Theorem append_frame_records_once env fd s :
  (exists s0,
     Agent_append_frame fd s = (Returns tt, s0) /\
     self_frames s0 = self_frames s ++ [fd] /\
     files s0 = files s /\ stdout s0 = stdout s /\
     Z.of_nat (length (self_frames s0)) - 1 = Z.of_nat (length (self_frames s)) /\
     self_frames s0 !! Z.to_nat (Z.of_nat (length (self_frames s0)) - 1) = Some fd /\
     append_frame env fd s
     = save_frame_to_file env fd (Z.of_nat (length (self_frames s0)) - 1) s0) /\
  (exists s', append_frame env fd s = (Returns tt, s') /\
     self_frames s' = self_frames s ++ [fd] /\
     trace s' = trace s ++ [HistoryAppended fd;
                            RecorderInvoked fd (Z.of_nat (length (self_frames s')) - 1)] /\
     self_frames s' !! Z.to_nat (Z.of_nat (length (self_frames s')) - 1) = Some fd /\
     (is_empty fd = false -> fault env = None ->
      files s'
      = <[record_filepath (self_frames_dir s) (Z.of_nat (length (self_frames s')) - 1)
                          (time_ms env)
          := Json.dumps (frame_data fd (Z.of_nat (length (self_frames s')) - 1) (time_ms env))]>
          (files s) /\
      stdout s'
      = stdout s ++ [saved_line (self_frames_dir s) (Z.of_nat (length (self_frames s')) - 1)
                                (time_ms env)])) /\
  (forall now_us hash_gid makedirs_refusal gid,
     recorder_idle s (init now_us hash_gid makedirs_refusal gid s).2) /\
  (forall super_name, recorder_idle s (name super_name s).2) /\
  (forall frames latest, recorder_idle s (is_done frames latest s).2) /\
  (forall frames latest, recorder_idle s (choose_action frames latest s).2).
Proof.
  destruct (Agent_append_frame_spec fd s)
    as (s0 & Happend & Hframes0 & Hdir0 & Hfiles0 & Hout0 & Htrace0).
  assert (Hk : Z.of_nat (length (self_frames s0)) - 1 = Z.of_nat (length (self_frames s))).
  { rewrite Hframes0, length_app. simpl. lia. }
  assert (Hat : self_frames s0 !! Z.to_nat (Z.of_nat (length (self_frames s0)) - 1) = Some fd).
  { rewrite Hk, Nat2Z.id, Hframes0. now apply list_lookup_middle. }
  assert (Hcall : append_frame env fd s
                  = save_frame_to_file env fd (Z.of_nat (length (self_frames s0)) - 1) s0).
  { unfold append_frame. unfold mbind at 1, M_bind at 1. rewrite Happend. reflexivity. }
  split; [|split; [|split; [|split; [|split]]]].
  - exists s0. auto 10.
  - destruct (save_frame_to_file_cases env fd (Z.of_nat (length (self_frames s0)) - 1) s0)
      as (s' & Hrun & _ & _ & Hframes & _ & _ & Htrace & Hcase).
    exists s'. split; [now rewrite Hcall|].
    rewrite Hframes. split; [exact Hframes0|].
    split; [rewrite Htrace, Htrace0; now rewrite <- app_assoc|].
    split; [exact Hat|].
    intros Hfd Hok. rewrite Hfd, Hok, Hdir0, Hfiles0, Hout0 in Hcase. exact Hcase.
  - intros. apply init_recorder_idle.
  - intros. now unfold recorder_idle.
  - intros. now unfold recorder_idle.
  - intros frames latest.
    destruct (choose_action_same_session frames latest s) as (_ & _ & _ & Hf & Ho & Ht).
    now unfold recorder_idle.
Qed.

(** C9, as amended.  [is_done] is pure and never fails: it returns and the
    process state is what it was.  [choose_action] leaves the agent's
    fields (among them the frame history), the storage, the console and
    the attributes of every action kind other than the one it returns as
    they were; it does write the attributes of the action kind it returns,
    and it advances the generator of the module [random] when it draws. *)
Theorem decision_engine_effects frames latest s :
  is_done frames latest s = (Returns (bool_decide (state latest = WIN)), s) /\
  same_session s (choose_action frames latest s).2 /\
  (forall a b, (choose_action frames latest s).1 = Returns a -> b <> a ->
     member_attrs (choose_action frames latest s).2 b = member_attrs s b) /\
  (forall e, (choose_action frames latest s).1 = Raises e ->
     (choose_action frames latest s).2 = s).
Proof.
  split; [apply is_done_pure|]. split; [apply choose_action_same_session|].
  destruct (choose_action_cases frames latest s)
    as [(_ & _ & e & Hraise) | (a & s' & Hrun & _ & _ & Hothers & _)].
  - rewrite Hraise. simpl. split; [discriminate | reflexivity].
  - rewrite Hrun. simpl. split; [|discriminate].
    intros a' b [= <-]. apply Hothers.
Qed.

End AgentProperties.

(** ** The theorems on the concrete session *)

(** C1 at work: the demo schema has kinds besides RESET; in an in-progress
    state the agent returns, and what it returns is not RESET. *)
Lemma choose_action_reset_iff_demo :
  (exists a, a ∈ (GameAction_members (ActionSchema := Demo.schema)) /\ a <> RESET) /\
  (exists a, (choose_action [] (Demo.frame_in Demo.playing) (Demo.fresh [5; 70; 3])).1
             = Returns a) /\
  ((choose_action [] (Demo.frame_in Demo.playing) (Demo.fresh [5; 70; 3])).1 = Returns RESET
   <-> state (Demo.frame_in Demo.playing) = NOT_PLAYED \/
       state (Demo.frame_in Demo.playing) = GAME_OVER).
Proof.
  assert (Hkinds : exists a, a ∈ (GameAction_members (ActionSchema := Demo.schema)) /\ a <> RESET).
  { exists Demo.Action1. split; [|discriminate].
    apply list_elem_of_In. simpl. auto. }
  destruct (choose_action_reset_iff [] (Demo.frame_in Demo.playing) (Demo.fresh [5; 70; 3]))
    as [Hiff Hreturns].
  split; [exact Hkinds|]. split; [exact (Hreturns Hkinds) | exact Hiff].
Defined.

(** C3 at work: the script draws the complex kind, then 70 and 3 for the
    coordinates, which land in the grid as 6 and 3. *)
Lemma complex_payload_within_grid_demo :
  exists x y,
    action_data
      (member_attrs
         (choose_action [] (Demo.frame_in Demo.playing) (Demo.fresh [5; 70; 3])).2
         Demo.Action6)
    = Some (JDict [("x", JInt x); ("y", JInt y)]) /\
    0 <= x <= 63 /\ 0 <= y <= 63.
Proof.
  apply (complex_payload_within_grid [] (Demo.frame_in Demo.playing) (Demo.fresh [5; 70; 3])
           Demo.Action6
           (choose_action [] (Demo.frame_in Demo.playing) (Demo.fresh [5; 70; 3])).2);
    reflexivity.
Defined.

(** C5 as stated fails when the storage is unavailable: the frame is not
    empty, the call returns, and no record exists afterwards. *)
Lemma save_frame_to_file_no_record_when_disk_down :
  is_empty (Demo.frame_in Demo.playing) = false /\
  ~ records_frame (Demo.disk_down 5) (Demo.frame_in Demo.playing) 7 (Demo.fresh []) /\
  files (save_frame_to_file (Demo.disk_down 5) (Demo.frame_in Demo.playing) 7 (Demo.fresh [])).2
  = ∅.
Proof.
  split; [reflexivity|]. split; [|reflexivity].
  intros (s' & text & doc & Hrun & Hfiles & _).
  injection Hrun as <-. simpl in Hfiles.
  symmetry in Hfiles. now apply insert_non_empty in Hfiles.
Qed.

(** C5, as amended, at work on a calm storage. *)
Lemma save_frame_to_file_roundtrip_demo :
  records_frame (Demo.calm 1700000000123) (Demo.frame_in Demo.playing) 7 (Demo.fresh []).
Proof.
  apply (save_frame_to_file_roundtrip (Demo.calm 1700000000123) (Demo.frame_in Demo.playing) 7
           (Demo.fresh [])); reflexivity.
Defined.

(** C6 at work on the empty frame. *)
Lemma save_frame_to_file_skips_empty_demo :
  exists s',
    save_frame_to_file (Demo.disk_down 5) Demo.empty_frame 0 (Demo.fresh []) = (Returns tt, s') /\
    files s' = files (Demo.fresh []) /\ stdout s' = stdout (Demo.fresh []).
Proof.
  apply (save_frame_to_file_skips_empty (Demo.disk_down 5) Demo.empty_frame 0 (Demo.fresh [])).
  reflexivity.
Defined.

(** C7 at work: two frames recorded in the same clock tick. *)
Lemma records_do_not_collide_demo :
  record_filename 0 42 <> record_filename 1 42 /\
  record_filepath "frames/ls20" 0 42 <> record_filepath "frames/ls20" 1 42 /\
  exists s1 s2,
    save_frame_to_file (Demo.calm 42) (Demo.frame_in Demo.playing) 0 (Demo.fresh [])
      = (Returns tt, s1) /\
    save_frame_to_file (Demo.calm 42) (Demo.frame_in WIN) 1 s1 = (Returns tt, s2) /\
    files s2 !! record_filepath "frames/ls20" 0 42
      = Some (Json.dumps (frame_data (Demo.frame_in Demo.playing) 0 42)) /\
    files s2 !! record_filepath "frames/ls20" 1 42
      = Some (Json.dumps (frame_data (Demo.frame_in WIN) 1 42)).
Proof.
  assert (Hk : (0 : Z) <> 1) by lia.
  destruct (records_do_not_collide (RS := Demo.scripted) (AS := Demo.schema)
              "frames/ls20" 0 1 42 42 Hk) as (Hname & Hpath & Hboth).
  split; [exact Hname|]. split; [exact Hpath|].
  apply (Hboth (Demo.calm 42) (Demo.calm 42) (Demo.frame_in Demo.playing) (Demo.frame_in WIN)
           (Demo.fresh [])); reflexivity.
Defined.

(** C9 as stated fails for [choose_action]: on a NOT_PLAYED frame it
    writes the reasoning attribute of the shared RESET member, so the
    process state after the call is not the state before; on an in-progress
    frame it consumes draws of the generator and attaches a payload to a
    member that the latest frame lists among its available actions. *)
Lemma choose_action_changes_state :
  (choose_action [] (Demo.frame_in NOT_PLAYED) (Demo.fresh [])).2 <> Demo.fresh [] /\
  reasoning (member_attrs (Demo.fresh []) Demo.Reset) = None /\
  reasoning
    (member_attrs (choose_action [] (Demo.frame_in NOT_PLAYED) (Demo.fresh [])).2 Demo.Reset)
  = Some (JStr "RNG told me to pick 0") /\
  random_state (Demo.fresh [5; 70; 3]) = [5; 70; 3] /\
  random_state (choose_action [] (Demo.frame_in Demo.playing) (Demo.fresh [5; 70; 3])).2 = [] /\
  Demo.Action6 ∈ available_actions (Demo.frame_in Demo.playing) /\
  action_data (member_attrs (Demo.fresh [5; 70; 3]) Demo.Action6) = None /\
  action_data
    (member_attrs (choose_action [] (Demo.frame_in Demo.playing) (Demo.fresh [5; 70; 3])).2
       Demo.Action6)
  = Some (JDict [("x", JInt 6); ("y", JInt 3)]).
Proof.
  split; [|repeat split].
  - intros Heq.
    apply (f_equal (fun s : @State Demo.scripted Demo.schema =>
                      reasoning (member_attrs s Demo.Reset))) in Heq.
    discriminate Heq.
  - apply list_elem_of_In. simpl. auto.
Qed.

(** * Further properties of the agent *)

(** ** What a record's name tells *)

Module NameFacts.
Import PyFormat.

Lemma read_int_str z : read_int (str z) = Some z.
Proof.
  unfold str. destruct (Z.ltb_spec z 0) as [Hneg|Hpos].
  - change (read_int (String "-" (digits (Z.abs_N z))) = Some z).
    rewrite PyFormatFacts.read_int_minus, JsonFacts.read_digits_digits.
    simpl. f_equal. lia.
  - rewrite PyFormatFacts.read_int_digits by apply PyFormatFacts.string_of_uint_digits.
    rewrite JsonFacts.read_digits_digits. simpl. f_equal. lia.
Qed.

Lemma str_inj z1 z2 : str z1 = str z2 -> z1 = z2.
Proof.
  intros Heq. pose proof (read_int_str z1) as H1.
  rewrite Heq, read_int_str in H1. now injection H1.
Qed.

Lemma str_numeric z : all_chars numeric_char (str z) = true.
Proof.
  unfold str. destruct (z <? 0).
  - change (all_chars numeric_char (String "-" (digits (Z.abs_N z))) = true). simpl.
    apply (PyFormatFacts.all_chars_mono is_digit);
      [|apply PyFormatFacts.string_of_uint_digits].
    intros c Hc. unfold numeric_char. now rewrite Hc.
  - apply (PyFormatFacts.all_chars_mono is_digit);
      [|apply PyFormatFacts.string_of_uint_digits].
    intros c Hc. unfold numeric_char. now rewrite Hc.
Qed.

(** Texts over a set of characters, each followed by a character outside
    the set: equal wholes have equal first parts and equal rests. *)
Lemma delimited_inj (p : ascii -> bool) (d : ascii) p1 p2 r1 r2 :
  p d = false -> all_chars p p1 = true -> all_chars p p2 = true ->
  p1 +:+ String d r1 = p2 +:+ String d r2 -> p1 = p2 /\ r1 = r2.
Proof.
  intros Hd. revert p2. induction p1 as [|c1 p1 IH]; intros [|c2 p2] H1 H2 Heq.
  - injection Heq as ->. auto.
  - injection Heq as <- _. simpl in H2. rewrite Hd in H2. discriminate H2.
  - injection Heq as -> _. simpl in H1. rewrite Hd in H1. discriminate H1.
  - injection Heq as <- Hrest. simpl in H1, H2.
    apply andb_prop in H1 as [_ H1]. apply andb_prop in H2 as [_ H2].
    destruct (IH p2 H1 H2 Hrest) as [-> ->]. auto.
Qed.

End NameFacts.

(** X1.  The name of a record file determines the frame number and the
    timestamp it was made from: two names, or two paths in one directory,
    are equal only if both numbers are. *)
Theorem record_name_determines dir k1 t1 k2 t2 :
  (record_filename k1 t1 = record_filename k2 t2 -> k1 = k2 /\ t1 = t2) /\
  (record_filepath dir k1 t1 = record_filepath dir k2 t2 -> k1 = k2 /\ t1 = t2).
Proof.
  assert (Hname : record_filename k1 t1 = record_filename k2 t2 -> k1 = k2 /\ t1 = t2).
  { unfold record_filename. intros Heq.
    apply PyFormatFacts.app_inv_head in Heq.
    apply (NameFacts.delimited_inj PyFormat.numeric_char "_") in Heq;
      [|reflexivity | apply PyFormatFacts.format_04d_numeric ..].
    destruct Heq as [Hk Ht]. split; [now apply PyFormatFacts.format_04d_inj|].
    apply (NameFacts.delimited_inj PyFormat.numeric_char ".") in Ht;
      [|reflexivity | apply NameFacts.str_numeric ..].
    now apply NameFacts.str_inj. }
  split; [exact Hname|].
  unfold record_filepath. intros Heq. apply Hname.
  eapply path_join_inj; [apply record_filename_relative .. | exact Heq].
Qed.

(** ** Names sort in frame order *)

Module OrderFacts.
Import PyFormat.

Lemma ascii_compare_refl c : Ascii.compare c c = Eq.
Proof. unfold Ascii.compare. apply N.compare_refl. Qed.

Lemma compare_app_head (p a b : string) :
  String.compare (p +:+ a) (p +:+ b) = String.compare a b.
Proof.
  induction p as [|c p IH]; [reflexivity|].
  rewrite !JsonFacts.app_cons. simpl. now rewrite ascii_compare_refl.
Qed.

Lemma compare_lt_app (a b r1 r2 : string) :
  String.length a = String.length b -> String.compare a b = Lt ->
  String.compare (a +:+ r1) (b +:+ r2) = Lt.
Proof.
  revert b. induction a as [|x a IH]; intros [|y b] Hlen Hlt; try discriminate.
  rewrite !JsonFacts.app_cons. simpl in *.
  destruct (Ascii.compare x y); [|reflexivity|discriminate].
  apply IH; [lia | exact Hlt].
Qed.

(** The number a digit sequence stands for, read from the left on top of
    what was read before. *)
Fixpoint uint_value (acc : N) (d : uint) : N :=
  match d with
  | Nil => acc
  | D0 l => uint_value (10 * acc) l
  | D1 l => uint_value (1 + 10 * acc) l
  | D2 l => uint_value (2 + 10 * acc) l
  | D3 l => uint_value (3 + 10 * acc) l
  | D4 l => uint_value (4 + 10 * acc) l
  | D5 l => uint_value (5 + 10 * acc) l
  | D6 l => uint_value (6 + 10 * acc) l
  | D7 l => uint_value (7 + 10 * acc) l
  | D8 l => uint_value (8 + 10 * acc) l
  | D9 l => uint_value (9 + 10 * acc) l
  end%N.

Lemma of_uint_acc_value d : forall acc, Npos (Pos.of_uint_acc d acc) = uint_value (Npos acc) d.
Proof.
  induction d; intros acc; simpl; [reflexivity | rewrite IHd; f_equal; lia ..].
Qed.

Lemma of_uint_value d : N.of_uint d = uint_value 0 d.
Proof.
  unfold N.of_uint.
  induction d; simpl; [reflexivity | exact IHd | apply of_uint_acc_value ..].
Qed.

Lemma uint_value_lt d1 : forall d2 x y,
  nb_digits d1 = nb_digits d2 -> (x < y)%N -> (uint_value x d1 < uint_value y d2)%N.
Proof.
  induction d1; intros d2 x y Hnb Hxy; destruct d2; simpl in *;
    try discriminate Hnb; try exact Hxy; (apply IHd1; [lia | lia]).
Qed.

Lemma uint_value_ge d : forall acc, (acc * 10 ^ N.of_nat (nb_digits d) <= uint_value acc d)%N.
Proof.
  induction d; intros acc; cbn [nb_digits uint_value];
    [simpl; lia | rewrite Nat2N.inj_succ, N.pow_succ_r'; etransitivity; [|apply IHd]; nia ..].
Qed.

(** Digit sequences of one length compare as texts the way their numbers
    compare. *)
Lemma compare_string_of_uint d1 : forall d2 x,
  nb_digits d1 = nb_digits d2 ->
  String.compare (NilEmpty.string_of_uint d1) (NilEmpty.string_of_uint d2)
  = N.compare (uint_value x d1) (uint_value x d2).
Proof.
  induction d1; intros d2 x Hnb; destruct d2; cbn [nb_digits] in Hnb; try discriminate Hnb;
    cbn [NilEmpty.string_of_uint uint_value String.compare];
    try (symmetry; apply N.compare_refl);
    try (change (Ascii.compare ?a ?a) with Eq; cbv iota; apply IHd1; lia);
    first
      [ change (Ascii.compare _ _) with Lt; cbv iota; symmetry;
        apply N.compare_lt_iff, uint_value_lt; lia
      | change (Ascii.compare _ _) with Gt; cbv iota; symmetry;
        apply N.compare_gt_iff, uint_value_lt; lia ].
Qed.

Lemma length_string_of_uint d : String.length (NilEmpty.string_of_uint d) = nb_digits d.
Proof. induction d; simpl; congruence. Qed.

Lemma zeros_string_of_uint n d :
  zeros n +:+ NilEmpty.string_of_uint d = NilEmpty.string_of_uint (Nat.iter n D0 d).
Proof.
  induction n as [|n IH]; [reflexivity|].
  simpl zeros. rewrite JsonFacts.app_cons, IH. reflexivity.
Qed.

Lemma nb_digits_iter_D0 n d : nb_digits (Nat.iter n D0 d) = (n + nb_digits d)%nat.
Proof. induction n as [|n IH]; [reflexivity|]. simpl. now rewrite IH. Qed.

(** A number below ten thousand has at most four digits. *)
Lemma nb_digits_small n : (n < 10000)%N -> (nb_digits (N.to_uint n) <= 4)%nat.
Proof.
  intros Hn.
  pose proof (JsonFacts.to_uint_normal n) as Hnorm.
  pose proof (DecimalN.Unsigned.of_to n) as Hval. rewrite of_uint_value in Hval.
  destruct (N.to_uint n) as [|l|l|l|l|l|l|l|l|l|l]; cbn [nb_digits]; [lia|..].
  { rewrite DecimalFacts.unorm_D0 in Hnorm. unfold unorm in Hnorm.
    destruct (nzhead l) eqn:Hhead;
      try (injection Hnorm as <-; simpl; lia); try discriminate Hnorm.
    rewrite <- Hhead in Hnorm. now apply DecimalFacts.nzhead_nonzero in Hnorm. }
  all: cbn [uint_value] in Hval;
    match type of Hval with
    | uint_value ?acc ?t = _ =>
        pose proof (uint_value_ge t acc) as Hge;
        destruct (le_lt_dec (nb_digits t) 3) as [Hle|Hgt]; [lia|];
        assert (Hpow : (10 ^ 4 <= 10 ^ N.of_nat (nb_digits t))%N)
          by (apply N.pow_le_mono_r; lia);
        change (10 ^ 4)%N with 10000%N in Hpow; nia
    end.
Qed.

Lemma format_04d_value (n : N) :
  (n < 10000)%N ->
  exists d, format_04d (Z.of_N n) = NilEmpty.string_of_uint d /\
            nb_digits d = 4%nat /\ uint_value 0 d = n.
Proof.
  intros Hn. pose proof (nb_digits_small n Hn) as Hnb.
  exists (Nat.iter (4 - nb_digits (N.to_uint n)) D0 (N.to_uint n)).
  split; [|split].
  - unfold format_04d. rewrite (proj2 (Z.ltb_ge (Z.of_N n) 0)) by lia.
    rewrite N2Z.id + replace (Z.abs_N (Z.of_N n)) with n by lia.
    unfold pad, digits. rewrite length_string_of_uint. apply zeros_string_of_uint.
  - rewrite nb_digits_iter_D0. lia.
  - rewrite <- of_uint_value, PyFormatFacts.of_uint_leading_zeros.
    apply DecimalN.Unsigned.of_to.
Qed.

Lemma format_04d_increasing (n1 n2 : N) :
  (n1 < n2)%N -> (n2 < 10000)%N ->
  String.length (format_04d (Z.of_N n1)) = String.length (format_04d (Z.of_N n2)) /\
  String.compare (format_04d (Z.of_N n1)) (format_04d (Z.of_N n2)) = Lt.
Proof.
  intros Hlt Hmax.
  destruct (format_04d_value n1) as (d1 & -> & Hnb1 & Hv1); [lia|].
  destruct (format_04d_value n2) as (d2 & -> & Hnb2 & Hv2); [lia|].
  rewrite !length_string_of_uint, Hnb1, Hnb2. split; [reflexivity|].
  rewrite (compare_string_of_uint d1 d2 0) by congruence.
  rewrite Hv1, Hv2. now apply N.compare_lt_iff.
Qed.

End OrderFacts.

(** X2.  For frame numbers from 0 to 9999 the names of the record files
    sort in frame order: the file of the smaller number comes strictly
    first in the lexical order of names, whatever the two timestamps. *)
Theorem record_names_sort_by_frame k1 k2 t1 t2 :
  0 <= k1 -> k1 < k2 -> k2 <= 9999 ->
  String.ltb (record_filename k1 t1) (record_filename k2 t2) = true.
Proof.
  intros H0 Hlt Hmax.
  destruct (OrderFacts.format_04d_increasing (Z.to_N k1) (Z.to_N k2)) as [Hwide Hcmp];
    [lia | lia |].
  rewrite !Z2N.id in Hwide, Hcmp by lia.
  unfold String.ltb, record_filename.
  rewrite OrderFacts.compare_app_head.
  now rewrite (OrderFacts.compare_lt_app _ _ _ _ Hwide Hcmp).
Qed.

(** X2 at work. *)
Lemma record_names_sort_by_frame_demo :
  String.ltb (record_filename 7 1700000000999) (record_filename 12 5) = true.
Proof. apply record_names_sort_by_frame; lia. Defined.

(** ** The recorder and the rest of the process *)

Section RecorderProperties.
Context `{RS : RandomSource} `{AS : ActionSchema}.

Implicit Types (s : State) (fd latest : FrameData) (frames : list FrameData).

(** X3.  One call of the recorder touches no file but the one named after
    its sequence number and clock value, whether the frame is empty, the
    write goes through or it fails. *)
Theorem save_frame_to_file_other_paths env fd k s path :
  path <> record_filepath (self_frames_dir s) k (time_ms env) ->
  files (save_frame_to_file env fd k s).2 !! path = files s !! path.
Proof.
  intros Hpath.
  destruct (save_frame_to_file_cases env fd k s)
    as (s' & Hrun & _ & _ & _ & _ & _ & _ & Hcase).
  rewrite Hrun. simpl.
  destruct (is_empty fd); [now destruct Hcase as [-> _]|].
  destruct (fault env) as [[msg|e written]|]; destruct Hcase as [-> _];
    try reflexivity; now rewrite lookup_insert_ne.
Qed.

(** X4.  The sequence number is the only thing that keeps two records of
    one clock tick apart: a second record made under the same number in
    the same tick replaces whatever the first call left, and the storage
    is as if only the second call had been made. *)
Theorem same_number_same_tick_overwrites env1 env2 fd1 fd2 k s :
  time_ms env1 = time_ms env2 -> is_empty fd2 = false -> fault env2 = None ->
  files (save_frame_to_file env2 fd2 k (save_frame_to_file env1 fd1 k s).2).2
  = <[record_filepath (self_frames_dir s) k (time_ms env2)
      := Json.dumps (frame_data fd2 k (time_ms env2))]> (files s).
Proof.
  intros Htick Hfd2 Hok2.
  destruct (save_frame_to_file_cases env1 fd1 k s)
    as (s1 & Hrun1 & _ & Hdir & _ & _ & _ & _ & Hcase1).
  destruct (save_frame_to_file_cases env2 fd2 k s1)
    as (s2 & Hrun2 & _ & _ & _ & _ & _ & _ & Hcase2).
  rewrite Hrun1. simpl. rewrite Hrun2. simpl.
  rewrite Hfd2, Hok2, Hdir in Hcase2. destruct Hcase2 as [-> _].
  rewrite Htick in Hcase1.
  destruct (is_empty fd1); [now destruct Hcase1 as [-> _]|].
  destruct (fault env1) as [[msg|e written]|]; destruct Hcase1 as [-> _];
    try reflexivity; apply insert_insert_eq.
Qed.

(** Two states with the same random generator and the same attributes on
    the action members look the same to the decision engine. *)
Definition same_decision_state s1 s2 : Prop :=
  random_state s1 = random_state s2 /\ member_attrs s1 = member_attrs s2.

Lemma fill_in_same_decision a s1 s2 :
  same_decision_state s1 s2 ->
  (fill_in a s1).1 = (fill_in a s2).1 /\
  same_decision_state (fill_in a s1).2 (fill_in a s2).2.
Proof.
  intros [Hrng Hattrs]. unfold fill_in, same_decision_state.
  destruct (is_simple a); [run; rewrite Hattrs; auto|].
  destruct (is_complex a); [|run; auto].
  unfold random_randint, random_randbelow. run. rewrite Hrng.
  destruct (randbelow _ (random_state s2)) as [x g1]. simpl.
  destruct (randbelow _ g1) as [y g2]. simpl.
  rewrite Hattrs. auto.
Qed.

Lemma random_choice_same_decision {A : Type} (seq : list A) s1 s2 :
  same_decision_state s1 s2 ->
  (random_choice seq s1).1 = (random_choice seq s2).1 /\
  same_decision_state (random_choice seq s1).2 (random_choice seq s2).2.
Proof.
  intros [Hrng Hattrs]. unfold same_decision_state.
  destruct seq as [|a0 seq']; [run; auto|].
  unfold random_choice, random_randbelow. run. rewrite Hrng.
  destruct (randbelow _ (random_state s2)) as [i g]. simpl.
  destruct (getitem _ i); simpl; auto.
Qed.

Lemma choose_action_same_decision frames1 frames2 latest s1 s2 :
  same_decision_state s1 s2 ->
  (choose_action frames1 latest s1).1 = (choose_action frames2 latest s2).1 /\
  same_decision_state (choose_action frames1 latest s1).2 (choose_action frames2 latest s2).2.
Proof.
  intros Hsame. rewrite !choose_action_unfold.
  destruct (bool_decide (state latest ∈ [NOT_PLAYED; GAME_OVER])).
  - destruct (fill_in_same_decision RESET s1 s2 Hsame) as [Hout Hstate].
    unfold mbind, M_bind, mret, M_ret.
    destruct (fill_in RESET s1) as [[[]|e1] s1'], (fill_in RESET s2) as [[[]|e2] s2'];
      simpl in *; try discriminate; try (injection Hout as ->); auto.
  - destruct (random_choice_same_decision
                (filter (fun a => a ≠ RESET) GameAction_members) s1 s2 Hsame)
      as [Hout Hstate].
    unfold mbind, M_bind, mret, M_ret.
    destruct (random_choice _ s1) as [[a1|e1] s1'], (random_choice _ s2) as [[a2|e2] s2'];
      simpl in *; try discriminate; [|injection Hout as ->; auto].
    injection Hout as ->.
    destruct (fill_in_same_decision a2 s1' s2' Hstate) as [Hout' Hstate'].
    destruct (fill_in a2 s1') as [[[]|e1] s1''], (fill_in a2 s2') as [[[]|e2] s2''];
      simpl in *; try discriminate; try (injection Hout' as ->); auto.
Qed.

(** X5.  Recording a frame, whatever happens to the write, does not change
    what the decision engine does next: after the call [choose_action]
    returns the same action, or raises the same exception, and leaves the
    generator and the action attributes as it would have without the call;
    [is_done] gives the same verdict. *)
Theorem recording_does_not_affect_decisions env fd k frames latest s :
  (choose_action frames latest (save_frame_to_file env fd k s).2).1
  = (choose_action frames latest s).1 /\
  random_state (choose_action frames latest (save_frame_to_file env fd k s).2).2
  = random_state (choose_action frames latest s).2 /\
  member_attrs (choose_action frames latest (save_frame_to_file env fd k s).2).2
  = member_attrs (choose_action frames latest s).2 /\
  (is_done frames latest (save_frame_to_file env fd k s).2).1 = (is_done frames latest s).1.
Proof.
  destruct (save_frame_to_file_cases env fd k s)
    as (s' & Hrun & _ & _ & _ & Hrng & Hattrs & _).
  rewrite Hrun. simpl.
  destruct (choose_action_same_decision frames frames latest s' s (conj Hrng Hattrs))
    as (Hout & Hrng' & Hattrs').
  auto.
Qed.

(** *** A session: frames appended one after another *)

(** What the driver does with the frames it receives: [append_frame] on
    each arrival, in order, each with the clock and the storage behaviour
    of its moment. *)
Fixpoint append_frames (arrivals : list (Env * FrameData)) : M unit :=
  match arrivals with
  | [] => mret tt
  | (env, fd) :: rest => append_frame env fd;; append_frames rest
  end.

(** The log of a run of appends that starts at history length [start]. *)
Fixpoint session_events (start : nat) (fds : list FrameData) : list Event :=
  match fds with
  | [] => []
  | fd :: rest =>
      HistoryAppended fd :: RecorderInvoked fd (Z.of_nat start) :: session_events (S start) rest
  end.

Lemma append_frame_step env fd s :
  exists s', append_frame env fd s = (Returns tt, s') /\
    self_frames_dir s' = self_frames_dir s /\
    self_frames s' = self_frames s ++ [fd] /\
    trace s' = trace s ++ [HistoryAppended fd;
                           RecorderInvoked fd (Z.of_nat (length (self_frames s)))] /\
    (forall path,
       path <> record_filepath (self_frames_dir s) (Z.of_nat (length (self_frames s))) (time_ms env) ->
       files s' !! path = files s !! path) /\
    (is_empty fd = false -> fault env = None ->
     files s' !! record_filepath (self_frames_dir s) (Z.of_nat (length (self_frames s))) (time_ms env)
     = Some (Json.dumps (frame_data fd (Z.of_nat (length (self_frames s))) (time_ms env)))).
Proof.
  pose (s0 := set_trace (trace s ++ [HistoryAppended fd])
                (set_self (self_game_id s) (self_frames_dir s) (self_frames s ++ [fd]) s)).
  assert (Hk : Z.of_nat (length (self_frames s0)) - 1 = Z.of_nat (length (self_frames s))).
  { simpl. rewrite length_app. simpl. lia. }
  destruct (save_frame_to_file_cases env fd (Z.of_nat (length (self_frames s0)) - 1) s0)
    as (s' & Hrun & _ & Hdir & Hframes & _ & _ & Htrace & Hcase).
  rewrite Hk in Htrace, Hcase.
  exists s'. split; [exact Hrun|]. split; [exact Hdir|]. split; [exact Hframes|].
  split; [rewrite Htrace; simpl; now rewrite <- app_assoc|].
  simpl in Hcase. split.
  - intros path Hpath.
    destruct (is_empty fd); [now destruct Hcase as [-> _]|].
    destruct (fault env) as [[msg|e written]|]; destruct Hcase as [-> _];
      try reflexivity; now rewrite lookup_insert_ne.
  - intros Hfd Hok. rewrite Hfd, Hok in Hcase. destruct Hcase as [-> _].
    apply lookup_insert_eq.
Qed.

Lemma append_frames_spec arrivals :
  forall s, exists s',
    append_frames arrivals s = (Returns tt, s') /\
    self_frames_dir s' = self_frames_dir s /\
    self_frames s' = self_frames s ++ map snd arrivals /\
    trace s' = trace s ++ session_events (length (self_frames s)) (map snd arrivals) /\
    (forall path,
       (forall k t, Z.of_nat (length (self_frames s)) <= k ->
                    path <> record_filepath (self_frames_dir s) k t) ->
       files s' !! path = files s !! path) /\
    (forall i env fd,
       arrivals !! i = Some (env, fd) -> is_empty fd = false -> fault env = None ->
       files s' !! record_filepath (self_frames_dir s)
                     (Z.of_nat (length (self_frames s) + i)) (time_ms env)
       = Some (Json.dumps (frame_data fd (Z.of_nat (length (self_frames s) + i)) (time_ms env)))).
Proof.
  induction arrivals as [|[env fd] rest IH]; intros s.
  - exists s. split; [reflexivity|]. simpl. rewrite !app_nil_r.
    repeat split; auto. intros i env fd Hi. discriminate Hi.
  - destruct (append_frame_step env fd s)
      as (s1 & Hrun1 & Hdir1 & Hframes1 & Htrace1 & Hkeep1 & Hwrite1).
    destruct (IH s1) as (s' & Hrun & Hdir & Hframes & Htrace & Hkeep & Hwrite).
    assert (Hlen : length (self_frames s1) = S (length (self_frames s))).
    { rewrite Hframes1, length_app. simpl. lia. }
    rewrite Hlen, Hdir1 in *.
    exists s'. split.
    { simpl. unfold mbind, M_bind. now rewrite Hrun1. }
    split; [exact Hdir|].
    split; [rewrite Hframes, Hframes1; simpl; now rewrite <- app_assoc|].
    split; [rewrite Htrace, Htrace1; simpl; now rewrite <- app_assoc|].
    split.
    + intros path Hpath. rewrite Hkeep.
      * apply Hkeep1, Hpath. lia.
      * intros k t Hk. apply Hpath. lia.
    + intros [|i] env' fd' Hi Hfd Hok; simpl in Hi.
      * injection Hi as <- <-. rewrite Nat.add_0_r, Hkeep; [now apply Hwrite1|].
        intros k t Hk Heq. apply record_filepath_inj in Heq. lia.
      * replace (length (self_frames s) + S i)%nat
          with (S (length (self_frames s)) + i)%nat by lia.
        now apply Hwrite.
Qed.

(** X6.  Over a whole session the frames are numbered by their place in
    the history, without gap or repeat, and no record is lost to a later
    one: after any run of appends, each frame that was not empty and whose
    write went through still has its record in the storage, under its own
    history index, whatever happened to the other writes and whatever the
    clock showed. *)
Theorem session_keeps_every_record arrivals s :
  exists s',
    append_frames arrivals s = (Returns tt, s') /\
    self_frames s' = self_frames s ++ map snd arrivals /\
    trace s' = trace s ++ session_events (length (self_frames s)) (map snd arrivals) /\
    (forall i env fd,
       arrivals !! i = Some (env, fd) -> is_empty fd = false -> fault env = None ->
       self_frames s' !! (length (self_frames s) + i)%nat = Some fd /\
       files s' !! record_filepath (self_frames_dir s)
                     (Z.of_nat (length (self_frames s) + i)) (time_ms env)
       = Some (Json.dumps (frame_data fd (Z.of_nat (length (self_frames s) + i)) (time_ms env)))).
Proof.
  destruct (append_frames_spec arrivals s)
    as (s' & Hrun & _ & Hframes & Htrace & _ & Hwrite).
  exists s'. split; [exact Hrun|]. split; [exact Hframes|]. split; [exact Htrace|].
  intros i env fd Hi Hfd Hok. split; [|now apply Hwrite].
  rewrite Hframes, lookup_app_r by lia.
  replace (length (self_frames s) + i - length (self_frames s))%nat with i by lia.
  rewrite list_lookup_fmap, Hi. reflexivity.
Qed.

End RecorderProperties.

(** ** One directory per game *)

Definition not_slash (c : ascii) : bool := negb (Ascii.eqb c sep).

(** A text without a path separator. *)
Definition no_slash (s : string) : Prop := PyFormat.all_chars not_slash s = true.

Lemma endswith_sep_app (p g : string) : g <> "" -> endswith_sep (p +:+ g) = endswith_sep g.
Proof.
  intros Hg. induction p as [|c p IH]; [reflexivity|].
  rewrite JsonFacts.app_cons. simpl. rewrite IH.
  destruct (p +:+ g) eqn:Hpg; [|reflexivity].
  destruct p; [now rewrite JsonFacts.app_nil_l in Hpg | discriminate Hpg].
Qed.

Lemma no_slash_endswith s : no_slash s -> endswith_sep s = false.
Proof.
  unfold no_slash. induction s as [|c s IH]; [reflexivity|]. simpl.
  intros [Hc Hs]%andb_prop. destruct s as [|c' s'].
  - unfold not_slash in Hc. now destruct (Ascii.eqb c sep).
  - now apply IH.
Qed.

Lemma no_slash_startswith s : no_slash s -> startswith_sep s = false.
Proof.
  unfold no_slash. destruct s as [|c s]; [reflexivity|]. simpl.
  intros [Hc _]%andb_prop. unfold not_slash in Hc. now destruct (Ascii.eqb c sep).
Qed.

Lemma no_slash_numeric s : PyFormat.all_chars PyFormat.numeric_char s = true -> no_slash s.
Proof.
  apply PyFormatFacts.all_chars_mono. intros c Hc.
  destruct c as [[|] [|] [|] [|] [|] [|] [|] [|]]; try discriminate Hc; reflexivity.
Qed.

Lemma record_filename_no_slash k t : no_slash (record_filename k t).
Proof.
  unfold no_slash, record_filename.
  rewrite !PyFormatFacts.all_chars_app.
  rewrite (no_slash_numeric _ (PyFormatFacts.format_04d_numeric k)).
  rewrite (no_slash_numeric _ (NameFacts.str_numeric t)).
  reflexivity.
Qed.

(** Where the records of a game go. *)
Lemma record_filepath_of_game gid k t :
  no_slash gid ->
  record_filepath (path_join "frames" gid) k t
  = "frames/" +:+ (if String.eqb gid "" then record_filename k t
                   else gid +:+ "/" +:+ record_filename k t).
Proof.
  intros Hgid. unfold record_filepath, path_join at 2.
  rewrite (no_slash_startswith gid Hgid). simpl (String.eqb "frames" "" || _).
  unfold path_join. rewrite record_filename_relative.
  destruct (String.eqb_spec gid "") as [->|Hne].
  - reflexivity.
  - change ("frames" +:+ "/" +:+ gid) with ("frames/" +:+ gid).
    rewrite endswith_sep_app, (no_slash_endswith gid Hgid) by exact Hne.
    change (String.eqb ("frames/" +:+ gid) "") with false. cbv iota beta delta [orb].
    now rewrite JsonFacts.app_assoc.
Qed.

Lemma no_slash_app_sep (a b : string) : ~ no_slash (a +:+ String sep b).
Proof.
  unfold no_slash. rewrite PyFormatFacts.all_chars_app. simpl.
  rewrite andb_false_r. discriminate.
Qed.

(** X7.  Games with distinct identifiers that hold no path separator keep
    their records apart: no path a record of one game can get is a path a
    record of the other can get, whatever the frame numbers and the clock
    values. *)
Theorem games_do_not_share_paths gid1 gid2 k1 t1 k2 t2 :
  no_slash gid1 -> no_slash gid2 -> gid1 <> gid2 ->
  record_filepath (path_join "frames" gid1) k1 t1
  <> record_filepath (path_join "frames" gid2) k2 t2.
Proof.
  intros H1 H2 Hne Heq.
  rewrite !record_filepath_of_game in Heq by assumption.
  apply PyFormatFacts.app_inv_head in Heq.
  pose proof (record_filename_no_slash k1 t1) as Hf1.
  pose proof (record_filename_no_slash k2 t2) as Hf2.
  destruct (String.eqb_spec gid1 "") as [->|Hne1], (String.eqb_spec gid2 "") as [->|Hne2].
  - now apply Hne.
  - rewrite Heq in Hf1. exact (no_slash_app_sep gid2 (record_filename k2 t2) Hf1).
  - rewrite <- Heq in Hf2. exact (no_slash_app_sep gid1 (record_filename k1 t1) Hf2).
  - apply (NameFacts.delimited_inj not_slash sep) in Heq; [|reflexivity | assumption ..].
    now apply Hne.
Qed.

(** X7 at work. *)
Lemma games_do_not_share_paths_demo :
  record_filepath (path_join "frames" "ls20") 3 42
  <> record_filepath (path_join "frames" "ft09") 3 42.
Proof. apply games_do_not_share_paths; [reflexivity | reflexivity | discriminate]. Defined.

(** The separator matters: the identifiers ["ls20"] and ["ls20/"] name the
    same directory. *)
Example trailing_slash_shares_paths :
  record_filepath (path_join "frames" "ls20") 3 42
  = record_filepath (path_join "frames" "ls20/") 3 42.
Proof. reflexivity. Qed.

(** ** More on the decision engine *)

Section DecisionProperties.
Context `{RS : RandomSource} `{AS : ActionSchema}.

Implicit Types (s : State) (fd latest : FrameData) (frames : list FrameData).

(** What [choose_action] answers, and where it leaves the generator, is a
    matter of the generator alone. *)
Lemma fill_in_same_draws a s1 s2 :
  random_state s1 = random_state s2 ->
  (fill_in a s1).1 = (fill_in a s2).1 /\
  random_state (fill_in a s1).2 = random_state (fill_in a s2).2.
Proof.
  intros Hrng. unfold fill_in.
  destruct (is_simple a); [run; auto|].
  destruct (is_complex a); [|run; auto].
  unfold random_randint, random_randbelow. run. rewrite Hrng.
  destruct (randbelow _ (random_state s2)) as [x g1]. simpl.
  destruct (randbelow _ g1) as [y g2]. simpl. auto.
Qed.

Lemma random_choice_same_draws {A : Type} (seq : list A) s1 s2 :
  random_state s1 = random_state s2 ->
  (random_choice seq s1).1 = (random_choice seq s2).1 /\
  random_state (random_choice seq s1).2 = random_state (random_choice seq s2).2.
Proof.
  intros Hrng. destruct seq as [|a0 seq']; [run; auto|].
  unfold random_choice, random_randbelow. run. rewrite Hrng.
  destruct (randbelow _ (random_state s2)) as [i g]. simpl.
  destruct (getitem _ i); simpl; auto.
Qed.

Lemma choose_action_same_draws frames1 frames2 latest s1 s2 :
  random_state s1 = random_state s2 ->
  (choose_action frames1 latest s1).1 = (choose_action frames2 latest s2).1 /\
  random_state (choose_action frames1 latest s1).2
  = random_state (choose_action frames2 latest s2).2.
Proof.
  intros Hrng. rewrite !choose_action_unfold.
  destruct (bool_decide (state latest ∈ [NOT_PLAYED; GAME_OVER])).
  - destruct (fill_in_same_draws RESET s1 s2 Hrng) as [Hout Hstate].
    unfold mbind, M_bind, mret, M_ret.
    destruct (fill_in RESET s1) as [[[]|e1] s1'], (fill_in RESET s2) as [[[]|e2] s2'];
      simpl in *; try discriminate; try (injection Hout as ->); auto.
  - destruct (random_choice_same_draws
                (filter (fun a => a ≠ RESET) GameAction_members) s1 s2 Hrng)
      as [Hout Hstate].
    unfold mbind, M_bind, mret, M_ret.
    destruct (random_choice _ s1) as [[a1|e1] s1'], (random_choice _ s2) as [[a2|e2] s2'];
      simpl in *; try discriminate; [|injection Hout as ->; auto].
    injection Hout as ->.
    destruct (fill_in_same_draws a2 s1' s2' Hstate) as [Hout' Hstate'].
    destruct (fill_in a2 s1') as [[[]|e1] s1''], (fill_in a2 s2') as [[[]|e2] s2''];
      simpl in *; try discriminate; try (injection Hout' as ->); auto.
Qed.

Lemma init_random_state now_us hash_gid makedirs_refusal gid s :
  random_state (init now_us hash_gid makedirs_refusal gid s).2
  = seed_rng (now_us + hash_gid `mod` 1000000).
Proof.
  unfold init, Agent_init, os_makedirs. run.
  destruct makedirs_refusal as [e|]; [reflexivity|].
  now destruct (has_nul _).
Qed.

(** X8.  [__init__] reseeds the one generator the whole process draws
    from, and what follows depends on the seed alone.  Whatever the
    generator held before, and whether or not the frames directory could be
    made, the generator afterwards is the one seeded with the clock in
    microseconds plus the hash reduced modulo one million.  That seed lies
    between the clock value and the clock value plus 999999, also for a
    negative hash, so a construction at least one second after another
    gets a strictly larger seed.  And two constructions in the same
    microsecond whose hashes agree modulo one million, whatever the games
    and the process states, are followed by the same answer of
    [choose_action] to the same frame and the same generator afterwards. *)
Theorem init_reseeds_generator now_us hash_gid makedirs_refusal gid s :
  random_state (init now_us hash_gid makedirs_refusal gid s).2
  = seed_rng (now_us + hash_gid `mod` 1000000) /\
  now_us <= now_us + hash_gid `mod` 1000000 < now_us + 1000000 /\
  (forall now_us' hash_gid',
     now_us + 1000000 <= now_us' ->
     now_us + hash_gid `mod` 1000000 < now_us' + hash_gid' `mod` 1000000) /\
  (forall hash_gid' makedirs_refusal' gid' s' frames frames' latest,
     hash_gid' `mod` 1000000 = hash_gid `mod` 1000000 ->
     (choose_action frames' latest (init now_us hash_gid' makedirs_refusal' gid' s').2).1
     = (choose_action frames latest (init now_us hash_gid makedirs_refusal gid s).2).1 /\
     random_state (choose_action frames' latest
                     (init now_us hash_gid' makedirs_refusal' gid' s').2).2
     = random_state (choose_action frames latest
                       (init now_us hash_gid makedirs_refusal gid s).2).2).
Proof.
  pose proof (Z.mod_pos_bound hash_gid 1000000 ltac:(lia)) as Hmod.
  split; [apply init_random_state|]. split; [lia|]. split.
  - intros now_us' hash_gid' Hlater.
    pose proof (Z.mod_pos_bound hash_gid' 1000000 ltac:(lia)). lia.
  - intros hash_gid' makedirs_refusal' gid' s' frames frames' latest Hsame.
    apply choose_action_same_draws.
    rewrite !init_random_state. now rewrite Hsame.
Qed.

(** The justification [choose_action] writes for an action. *)
Definition expected_reasoning (a : GameAction) : json :=
  if is_simple a then JStr ("RNG told me to pick " +:+ value_str (action_value a))
  else JDict [("desired_action", JStr (value_str (action_value a)));
              ("my_reason", JStr "RNG said so!")].

Lemma fill_in_reasoning a s :
  reasoning (member_attrs (fill_in a s).2 a) = Some (expected_reasoning a).
Proof.
  unfold fill_in, expected_reasoning, is_simple, is_complex.
  destruct (action_type a); simpl.
  - run. now rewrite update_attrs_eq.
  - unfold random_randint, random_randbelow. run.
    destruct (randbelow _ (random_state s)) as [x g1]. simpl.
    destruct (randbelow _ g1) as [y g2]. simpl.
    now rewrite update_attrs_eq.
Qed.

(** A run of [choose_action] that returns went through [fill_in]. *)
Lemma choose_action_returns_filled frames latest s a s' :
  choose_action frames latest s = (Returns a, s') ->
  exists s0, s' = (fill_in a s0).2.
Proof.
  rewrite choose_action_unfold. unfold mbind, M_bind, mret, M_ret.
  destruct (if bool_decide (state latest ∈ [NOT_PLAYED; GAME_OVER])
            then _ else _) as [[a0|e] s0]; [|discriminate].
  destruct (fill_in a0 s0) as [[[]|e] s1] eqn:Hfill; [|discriminate].
  intros [= <- <-]. exists s0. now rewrite Hfill.
Qed.

(** X9.  Every action [choose_action] returns carries a justification that
    names the action itself: the text with its value for a simple action,
    the two-field object with its value for a complex one.  A justification
    left by an earlier call never survives on the returned action. *)
Theorem returned_action_is_justified frames latest s a s' :
  choose_action frames latest s = (Returns a, s') ->
  reasoning (member_attrs s' a) = Some (expected_reasoning a).
Proof.
  intros (s0 & ->)%choose_action_returns_filled. apply fill_in_reasoning.
Qed.

(** X10.  With nothing to choose from, that is when RESET is the only
    action kind, [choose_action] on a frame that is neither NOT_PLAYED nor
    GAME_OVER raises [IndexError] out of [random.choice]; it draws nothing
    and writes nothing before it does. *)
Theorem choose_action_nothing_to_choose frames latest s :
  state latest <> NOT_PLAYED -> state latest <> GAME_OVER ->
  (forall a, a ∈ GameAction_members -> a = RESET) ->
  choose_action frames latest s
  = (Raises (Exn IndexError "Cannot choose from an empty sequence"), s).
Proof.
  intros Hnp Hover Honly. rewrite choose_action_unfold.
  rewrite bool_decide_eq_false_2.
  - assert (Hnil : filter (fun a => a ≠ RESET) GameAction_members = []).
    { apply elem_of_nil_inv. intros a [Hne Hmem]%list_elem_of_filter.
      now apply Hne, Honly. }
    rewrite Hnil. reflexivity.
  - rewrite elem_of_cons, list_elem_of_singleton. tauto.
Qed.

Lemma random_choice_at {A : Type} (seq : list A) s i a :
  seq !! i = Some a ->
  (randbelow (Z.of_nat (length seq)) (random_state s)).1 = Z.of_nat i ->
  random_choice seq s
  = (Returns a, set_random_state (randbelow (Z.of_nat (length seq)) (random_state s)).2 s).
Proof.
  intros Hi Hdraw. destruct seq as [|a0 rest]; [discriminate Hi|].
  set (seq := a0 :: rest) in *.
  change (random_choice seq s) with
    ((j ← random_randbelow (Z.of_nat (length seq));
      match getitem seq j with
      | Some a => mret a
      | None => raise (Exn IndexError "list index out of range")
      end) s).
  unfold mbind, M_bind. rewrite random_randbelow_spec, Hdraw.
  unfold getitem. rewrite (proj2 (Z.leb_le 0 (Z.of_nat i))) by lia.
  now rewrite Nat2Z.id, Hi.
Qed.

(** X11.  In a state other than NOT_PLAYED and GAME_OVER the choice follows
    the draw: [choose_action] returns the member at the drawn position of
    the list of non-RESET members, so each of them is returned for some
    draw; and whatever it returns is RESET or a member of the enumeration. *)
Theorem choose_action_follows_the_draw frames latest s :
  (forall i a,
     state latest <> NOT_PLAYED -> state latest <> GAME_OVER ->
     filter (fun a => a ≠ RESET) GameAction_members !! i = Some a ->
     (randbelow (Z.of_nat (length (filter (fun a => a ≠ RESET) GameAction_members)))
        (random_state s)).1 = Z.of_nat i ->
     (choose_action frames latest s).1 = Returns a) /\
  (forall a, (choose_action frames latest s).1 = Returns a ->
             a = RESET \/ a ∈ GameAction_members).
Proof.
  split.
  - intros i a Hnp Hover Hi Hdraw. rewrite choose_action_unfold.
    rewrite bool_decide_eq_false_2
      by (rewrite elem_of_cons, list_elem_of_singleton; tauto).
    set (kinds := filter (fun a => a ≠ RESET) GameAction_members) in *.
    pose proof (random_choice_at kinds s i a Hi Hdraw) as Hchoice.
    unfold mbind, M_bind at 1. rewrite Hchoice.
    destruct (fill_in_spec a
                (set_random_state (randbelow (Z.of_nat (length kinds)) (random_state s)).2 s))
      as (s' & Hfill & _).
    unfold mbind, M_bind, mret, M_ret. now rewrite Hfill.
  - intros a Hrun.
    destruct (choose_action_cases frames latest s)
      as [(_ & _ & e & Hraise) | (a' & s' & Hrun' & Hiff & _)].
    + rewrite Hraise in Hrun. discriminate Hrun.
    + rewrite Hrun' in Hrun. injection Hrun as ->.
      destruct (decide (a = RESET)) as [->|Hne]; [now left|]. right.
      revert Hrun'. rewrite choose_action_unfold.
      destruct (bool_decide (state latest ∈ [NOT_PLAYED; GAME_OVER])) eqn:Hreset.
      * apply reset_test_iff in Hreset. now apply Hiff in Hreset.
      * unfold mbind, M_bind at 1.
        destruct (filter (fun a => a ≠ RESET) GameAction_members) as [|a0 rest] eqn:Hkinds;
          [discriminate|].
        rewrite <- Hkinds.
        destruct (random_choice_spec (filter (fun a => a ≠ RESET) GameAction_members) s)
          as (b & [_ Hb]%list_elem_of_filter & ->); [now rewrite Hkinds|].
        unfold mbind, M_bind, mret, M_ret.
        destruct (fill_in b _) as [[[]|e] s1]; [|discriminate].
        now intros [= <- _].
Qed.

Lemma reset_test_true latest :
  state latest = NOT_PLAYED \/ state latest = GAME_OVER ->
  bool_decide (state latest ∈ [NOT_PLAYED; GAME_OVER]) = true.
Proof. apply reset_test_iff. Qed.

Lemma choose_action_on_reset frames latest s :
  state latest = NOT_PLAYED \/ state latest = GAME_OVER -> is_simple RESET = true ->
  choose_action frames latest s
  = (Returns RESET,
     set_member_attrs
       (update_attrs RESET
          (fun at_ => {| reasoning := Some (expected_reasoning RESET);
                         action_data := action_data at_ |})
          (member_attrs s)) s).
Proof.
  intros Hreset Hsimple. rewrite choose_action_unfold, (reset_test_true latest Hreset).
  unfold mbind, M_bind, mret, M_ret, fill_in, expected_reasoning.
  rewrite Hsimple. reflexivity.
Qed.

(** X12.  Asking for a reset costs no randomness and can be repeated: on a
    NOT_PLAYED or GAME_OVER frame, RESET being a simple action,
    [choose_action] returns RESET without a draw, and a second call
    returns RESET again and changes nothing the first call left. *)
Theorem reset_request_repeats frames1 frames2 latest s :
  state latest = NOT_PLAYED \/ state latest = GAME_OVER -> is_simple RESET = true ->
  (choose_action frames1 latest s).1 = Returns RESET /\
  random_state (choose_action frames1 latest s).2 = random_state s /\
  (choose_action frames2 latest (choose_action frames1 latest s).2).1 = Returns RESET /\
  random_state (choose_action frames2 latest (choose_action frames1 latest s).2).2
  = random_state s /\
  (forall b,
     member_attrs (choose_action frames2 latest (choose_action frames1 latest s).2).2 b
     = member_attrs (choose_action frames1 latest s).2 b) /\
  same_session (choose_action frames1 latest s).2
    (choose_action frames2 latest (choose_action frames1 latest s).2).2.
Proof.
  intros Hreset Hsimple.
  rewrite (choose_action_on_reset frames1 latest s Hreset Hsimple). simpl.
  rewrite (choose_action_on_reset frames2 latest _ Hreset Hsimple). simpl.
  repeat split.
  intros b. unfold update_attrs. now destruct (decide (b = RESET)).
Qed.

(** X13.  The two verdicts never clash: on a frame for which
    [choose_action] returns RESET, [is_done] says the game is not done, and
    on a frame for which [is_done] says done, [choose_action] does not
    return RESET, whatever the histories and process states of the calls. *)
Theorem reset_means_not_done frames1 frames2 latest s1 s2 :
  ((choose_action frames1 latest s1).1 = Returns RESET ->
   (is_done frames2 latest s2).1 = Returns false) /\
  ((is_done frames2 latest s2).1 = Returns true ->
   (choose_action frames1 latest s1).1 <> Returns RESET).
Proof.
  assert (Hreset : (choose_action frames1 latest s1).1 = Returns RESET ->
                   state latest = NOT_PLAYED \/ state latest = GAME_OVER).
  { destruct (choose_action_cases frames1 latest s1)
      as [(_ & _ & e & Hraise) | (a & s' & Hrun & Hiff & _)].
    - rewrite Hraise. discriminate.
    - rewrite Hrun. simpl. intros [= ->]. now apply Hiff. }
  rewrite is_done_pure. simpl. split.
  - intros Hrun. f_equal. apply bool_decide_eq_false.
    destruct (Hreset Hrun) as [-> | ->]; discriminate.
  - intros [= Hwin%bool_decide_eq_true] Hrun.
    destruct (Hreset Hrun) as [Hs | Hs]; rewrite Hs in Hwin; discriminate Hwin.
Qed.

(** X14.  The draws of one call: in a state other than NOT_PLAYED and
    GAME_OVER, [choose_action] draws once to choose the action and, for a
    complex action only, twice more, first for x and then for y; the
    payload holds exactly those two draws. *)
Theorem choose_action_draws frames latest s a s' :
  state latest <> NOT_PLAYED -> state latest <> GAME_OVER ->
  choose_action frames latest s = (Returns a, s') ->
  let kinds := filter (fun a => a ≠ RESET) GameAction_members in
  let pick := randbelow (Z.of_nat (length kinds)) (random_state s) in
  let draw_x := randbelow 64 pick.2 in
  let draw_y := randbelow 64 draw_x.2 in
  getitem kinds pick.1 = Some a /\
  if is_simple a then random_state s' = pick.2
  else random_state s' = draw_y.2 /\
       action_data (member_attrs s' a)
       = Some (JDict [("x", JInt draw_x.1); ("y", JInt draw_y.1)]).
Proof.
  intros Hnp Hover. rewrite choose_action_unfold.
  rewrite bool_decide_eq_false_2
    by (rewrite elem_of_cons, list_elem_of_singleton; tauto).
  cbv zeta. set (kinds := filter (fun a => a ≠ RESET) GameAction_members).
  unfold mbind, M_bind at 1.
  destruct kinds as [|a0 rest] eqn:Hkinds; [discriminate|]. rewrite <- Hkinds.
  assert (Hchoice : random_choice kinds s
                    = (j ← random_randbelow (Z.of_nat (length kinds));
                       match getitem kinds j with
                       | Some a => mret a
                       | None => raise (Exn IndexError "list index out of range")
                       end) s) by now rewrite Hkinds.
  rewrite Hchoice. unfold mbind, M_bind at 1. rewrite random_randbelow_spec.
  destruct (getitem kinds _) as [b|] eqn:Hget; [|discriminate].
  unfold mret, M_ret at 1.
  unfold fill_in, is_simple, is_complex.
  destruct (action_type b) eqn:Htype; simpl.
  - run. intros [= <- <-]. unfold is_simple. rewrite Htype. simpl. auto.
  - unfold random_randint, random_randbelow. run.
    change (63 + 1 - 0) with 64.
    destruct (randbelow 64 _) as [x g1] eqn:Hx. simpl.
    destruct (randbelow 64 g1) as [y g2] eqn:Hy. simpl.
    intros [= <- <-]. unfold is_simple. rewrite Htype. simpl.
    rewrite !update_attrs_eq. simpl. auto.
Qed.

End DecisionProperties.

(** ** The further properties on concrete sessions *)

(** A schema whose only action kind is RESET. *)
Module Lonely.

#[export] Instance schema : ActionSchema := {|
  GameAction := unit;
  RESET := tt;
  GameAction_members := [tt];
  action_type := fun _ => SimpleAction;
  action_value := fun _ => IntValue 0
|}.

Definition fresh : State := {|
  self_game_id := "ls20";
  self_frames_dir := "frames/ls20";
  self_frames := [];
  random_state := ([] : rng (RandomSource := Demo.scripted));
  member_attrs := fun _ => {| reasoning := None; action_data := None |};
  files := ∅;
  stdout := [];
  trace := []
|}.

Definition playing_frame : FrameData := {|
  game_id := "ls20";
  frame := [JInt 0];
  state := IN_PROGRESS "NOT_FINISHED";
  score := 0;
  guid := "g-1";
  full_reset := false;
  available_actions := []
|}.

End Lonely.

(** X3 at work: a record of frame 8 is not touched by recording frame 7. *)
Lemma save_frame_to_file_other_paths_demo :
  files (save_frame_to_file (Demo.calm 5) (Demo.frame_in Demo.playing) 7 (Demo.fresh [])).2
    !! "frames/ls20/frame_0008_5.json"
  = files (Demo.fresh []) !! "frames/ls20/frame_0008_5.json".
Proof.
  apply (save_frame_to_file_other_paths (Demo.calm 5) (Demo.frame_in Demo.playing) 7
           (Demo.fresh [])).
  vm_compute. discriminate.
Defined.

(** X4 at work: frame 7 recorded twice in the tick 5. *)
Lemma same_number_same_tick_overwrites_demo :
  files (save_frame_to_file (Demo.calm 5) (Demo.frame_in WIN) 7
           (save_frame_to_file (Demo.calm 5) (Demo.frame_in Demo.playing) 7 (Demo.fresh [])).2).2
  = <[record_filepath (self_frames_dir (Demo.fresh [])) 7 (time_ms (Demo.calm 5))
      := Json.dumps (frame_data (Demo.frame_in WIN) 7 (time_ms (Demo.calm 5)))]>
      (files (Demo.fresh [])).
Proof.
  apply (same_number_same_tick_overwrites (Demo.calm 5) (Demo.calm 5)
           (Demo.frame_in Demo.playing) (Demo.frame_in WIN) 7 (Demo.fresh []));
    reflexivity.
Defined.

(** X9 at work on the complex action of the demo schema. *)
Lemma returned_action_is_justified_demo :
  reasoning
    (member_attrs (choose_action [] (Demo.frame_in Demo.playing) (Demo.fresh [5; 70; 3])).2
       Demo.Action6)
  = Some (expected_reasoning (AS := Demo.schema) Demo.Action6).
Proof.
  apply (returned_action_is_justified [] (Demo.frame_in Demo.playing) (Demo.fresh [5; 70; 3])).
  reflexivity.
Defined.

(** X10 at work. *)
Lemma choose_action_nothing_to_choose_demo :
  choose_action [] Lonely.playing_frame Lonely.fresh
  = (Raises (Exn IndexError "Cannot choose from an empty sequence"), Lonely.fresh).
Proof.
  apply choose_action_nothing_to_choose; [discriminate | discriminate |].
  intros []. reflexivity.
Defined.

(** X12 at work. *)
Lemma reset_request_repeats_demo :
  (choose_action [] (Demo.frame_in GAME_OVER) (Demo.fresh [5])).1 = Returns Demo.Reset /\
  random_state (choose_action [] (Demo.frame_in GAME_OVER) (Demo.fresh [5])).2 = [5] /\
  (choose_action [Demo.frame_in GAME_OVER] (Demo.frame_in GAME_OVER)
     (choose_action [] (Demo.frame_in GAME_OVER) (Demo.fresh [5])).2).1 = Returns Demo.Reset.
Proof.
  destruct (reset_request_repeats [] [Demo.frame_in GAME_OVER] (Demo.frame_in GAME_OVER)
              (Demo.fresh [5]) (or_intror eq_refl) eq_refl)
    as (Hfirst & Hrng & Hsecond & _).
  split; [exact Hfirst|]. split; [exact Hrng | exact Hsecond].
Defined.

(** X14 at work: one draw for the simple action 3, three for the complex
    action 6. *)
Lemma choose_action_draws_demo :
  random_state (choose_action [] (Demo.frame_in Demo.playing) (Demo.fresh [2; 70; 3])).2
  = [70; 3] /\
  random_state (choose_action [] (Demo.frame_in Demo.playing) (Demo.fresh [5; 70; 3; 9])).2
  = [9].
Proof.
  split.
  - exact (proj2 (choose_action_draws [] (Demo.frame_in Demo.playing) (Demo.fresh [2; 70; 3])
                    Demo.Action3 _ ltac:(discriminate) ltac:(discriminate) eq_refl)).
  - exact (proj1 (proj2 (choose_action_draws [] (Demo.frame_in Demo.playing)
                           (Demo.fresh [5; 70; 3; 9])
                           Demo.Action6 _ ltac:(discriminate) ltac:(discriminate) eq_refl))).
Defined.

(** ** Record files are plain ASCII *)

Module AsciiFacts.
Import PyFormat Json.

(** A line feed or a printable ASCII character. *)
Definition text_char (c : ascii) : bool :=
  Ascii.eqb c lf || ((32 <=? N_of_ascii c) && (N_of_ascii c <=? 126))%N.

Definition plain (s : string) : Prop := all_chars text_char s = true.

Lemma plain_app (a b : string) : plain a -> plain b -> plain (a +:+ b).
Proof.
  unfold plain. intros Ha Hb. now rewrite PyFormatFacts.all_chars_app, Ha, Hb.
Qed.

Lemma escape_char_plain c : plain (escape_char c).
Proof. destruct c as [[|] [|] [|] [|] [|] [|] [|] [|]]; reflexivity. Qed.

Lemma quote_plain s : plain (quote s).
Proof.
  unfold quote.
  assert (Hesc : plain (escape s)).
  { induction s as [|c s IH]; [reflexivity|]. simpl escape.
    apply plain_app; [apply escape_char_plain | exact IH]. }
  change (plain (String dq "" +:+ escape s +:+ String dq "")).
  repeat apply plain_app; try reflexivity; exact Hesc.
Qed.

Lemma str_plain z : plain (str z).
Proof.
  apply (PyFormatFacts.all_chars_mono numeric_char); [|apply NameFacts.str_numeric].
  intros c Hc. destruct c as [[|] [|] [|] [|] [|] [|] [|] [|]]; try discriminate Hc; reflexivity.
Qed.

Lemma spaces_plain n : plain (spaces n).
Proof. induction n as [|n IH]; [reflexivity|exact IH]. Qed.

Lemma newline_indent_plain level : plain (newline_indent level).
Proof. unfold newline_indent. apply (plain_app (String lf "")); [reflexivity|apply spaces_plain]. Qed.

Lemma item_separator_plain level : plain (item_separator level).
Proof. unfold item_separator. apply plain_app; [reflexivity | apply newline_indent_plain]. Qed.

Lemma join_plain sep chunks : plain sep -> Forall plain chunks -> plain (join sep chunks).
Proof.
  intros Hsep. induction 1 as [|c l Hc Hl IH]; [reflexivity|].
  destruct l as [|c' l']; [exact Hc|].
  change (plain (c +:+ sep +:+ join sep (c' :: l'))).
  repeat apply plain_app; assumption.
Qed.

Lemma dumps_at_plain j : forall level, plain (dumps_at level j).
Proof.
  induction j as [|b|z|s|items IH|fields IH] using JsonFacts.json_nested_ind; intros level.
  - reflexivity.
  - destruct b; reflexivity.
  - apply str_plain.
  - apply quote_plain.
  - destruct items as [|x l]; [reflexivity|].
    rewrite JsonFacts.dumps_at_list.
    repeat apply plain_app; try reflexivity; try apply newline_indent_plain.
    apply join_plain; [apply item_separator_plain|].
    apply Forall_fmap. eapply Forall_impl; [exact IH|]. intros y Hy. apply Hy.
  - destruct fields as [|kv l]; [reflexivity|].
    rewrite JsonFacts.dumps_at_dict.
    repeat apply plain_app; try reflexivity; try apply newline_indent_plain.
    apply join_plain; [apply item_separator_plain|].
    apply Forall_fmap. eapply Forall_impl; [exact IH|]. intros [k v] Hv. simpl in *.
    apply plain_app; [apply quote_plain|].
    apply plain_app; [reflexivity | apply Hv].
Qed.

Lemma substring_plain n m s : plain s -> plain (substring n m s).
Proof.
  unfold plain. revert n m. induction s as [|c s IH]; intros n m Hs.
  - destruct n, m; reflexivity.
  - simpl in Hs. apply andb_prop in Hs as [Hc Hs].
    destruct n as [|n]; simpl.
    + destruct m as [|m]; [reflexivity|]. simpl. rewrite Hc. now apply IH.
    + now apply IH.
Qed.

End AsciiFacts.

Section RecordText.
Context `{RS : RandomSource} `{AS : ActionSchema}.

(** X15.  Whatever a frame holds, what the recorder writes is plain ASCII:
    when the file of a non-empty frame could be opened, the file holds
    afterwards, in full or cut short by a failing dump, only printable
    ASCII characters and line feeds. *)
Theorem record_file_is_ascii env (fd : FrameData) k (s : State) :
  is_empty fd = false ->
  (forall msg, fault env <> Some (OpenFails msg)) ->
  exists text,
    files (save_frame_to_file env fd k s).2
      !! record_filepath (self_frames_dir s) k (time_ms env) = Some text /\
    AsciiFacts.plain text.
Proof.
  intros Hfd Hopen.
  destruct (save_frame_to_file_cases env fd k s)
    as (s' & Hrun & _ & _ & _ & _ & _ & _ & Hcase).
  rewrite Hrun. simpl. rewrite Hfd in Hcase.
  destruct (fault env) as [[msg|e written]|]; destruct Hcase as [-> _].
  - now destruct (Hopen msg).
  - eexists. split; [apply lookup_insert_eq|].
    apply AsciiFacts.substring_plain, AsciiFacts.dumps_at_plain.
  - eexists. split; [apply lookup_insert_eq|]. apply AsciiFacts.dumps_at_plain.
Qed.

End RecordText.

(** X15 at work on a dump that breaks after 20 characters. *)
Lemma record_file_is_ascii_demo :
  exists text,
    files (save_frame_to_file (Demo.dump_breaks 5) (Demo.frame_in Demo.playing) 7 (Demo.fresh [])).2
      !! record_filepath (self_frames_dir (Demo.fresh [])) 7 (time_ms (Demo.dump_breaks 5))
    = Some text /\
    AsciiFacts.plain text.
Proof.
  apply (record_file_is_ascii (Demo.dump_breaks 5) (Demo.frame_in Demo.playing) 7 (Demo.fresh []));
    [reflexivity | discriminate].
Defined.

(** X8 at work: two agents made in the same microsecond, for two games
    whose hashes agree modulo one million, in processes whose generators
    differed before; both pick the same action next. *)
Lemma init_reseeds_generator_demo :
  (choose_action [] (Demo.frame_in Demo.playing)
     (init 1700000000000000 999993 None "ft09" (Demo.fresh [5; 6; 7])).2).1
  = (choose_action [] (Demo.frame_in Demo.playing)
       (init 1700000000000000 (-7) None "ls20" (Demo.fresh [])).2).1.
Proof.
  apply (init_reseeds_generator 1700000000000000 (-7) None "ls20" (Demo.fresh [])).
  reflexivity.
Defined.
